(** * aws-cost-dashboard: the FastAPI backend (backend/app.py)

    A shallow embedding of the request handlers of [backend/app.py]:
    the credential model [AWSCreds], the session factory [get_clients],
    the handlers [health], [metrics], [get_resources] and [get_cost], and
    the [metrics_middleware] that counts requests per path.

    The cloud provider (boto3) is an oracle that answers each SDK call with
    a value or an exception; every call is appended to a log, so that
    "no provider call was attempted" is a statement about that log.
    Exceptions are instances of [Exception], which is what the handlers
    catch. The CORS middleware, which only adds headers, is left out. *)

From Stdlib Require Import ZArith List String Ascii Bool Lia.
From Stdlib Require Import Floats.SpecFloat.
From stdpp Require Import gmap strings.

Import ListNotations.
Local Open Scope string_scope.
Local Open Scope Z_scope.

(** ** Python floats

    A Python [float] is an IEEE 754 binary64 number; [spec_float] of the
    standard library is its specification ([prec = 53], [emax = 1024]). *)

Module PyFloat.

Definition prec : Z := 53.
Definition emax : Z := 1024.

(** The binary64 number nearest to the rational [(-1)^s * n / d], ties to
    even: the quotient is computed to full precision with the position of
    the remainder, then rounded like an IEEE division. *)
Definition b64_of_ratio (s : bool) (n d : Z) : spec_float :=
  let '(mz, ez, lz) := SFdiv_core_binary prec emax n 0 d 0 in
  binary_round_aux prec emax s mz ez lz.

(** [n * 10^k] as a binary64 number (what the C library's [strtod], used
    by [float(str)], returns for the decimal [n]e[k]). *)
Definition b64_of_decimal (s : bool) (n : Z) (k : Z) : spec_float :=
  if 0 <=? k then b64_of_ratio s (n * 10 ^ k) 1
  else b64_of_ratio s n (10 ^ (- k)).

(** *** [float(str)] *)

Definition code (c : ascii) : Z := Z.of_nat (nat_of_ascii c).

(** The white space that [float] strips, among the code points below
    256: tab to carriage return, space, next line and no-break space. *)
Definition is_space (c : ascii) : bool :=
  let n := code c in
  ((9 <=? n) && (n <=? 13)) || (n =? 32) || (n =? 133) || (n =? 160).

Definition digit_of (c : ascii) : option Z :=
  let n := code c in
  if (48 <=? n) && (n <=? 57) then Some (n - 48) else None.

Definition lower (c : ascii) : ascii :=
  let n := code c in
  if (65 <=? n) && (n <=? 90) then ascii_of_nat (Z.to_nat (n + 32)) else c.

Fixpoint lstrip (l : list ascii) : list ascii :=
  match l with
  | c :: r => if is_space c then lstrip r else l
  | [] => []
  end.

Definition strip (l : list ascii) : list ascii :=
  rev (lstrip (rev (lstrip l))).

(** [digitpart ::= digit (["_"] digit)*]: the digits read so far are
    accumulated in [acc] (their value) and [cnt] (how many); the function
    is entered after a first digit. *)
Fixpoint digits_tail (l : list ascii) (acc : Z) (cnt : Z)
  : Z * Z * list ascii :=
  match l with
  | c :: r =>
      match digit_of c with
      | Some d => digits_tail r (10 * acc + d) (cnt + 1)
      | None =>
          if Ascii.eqb c "_" then
            match r with
            | c' :: r' =>
                match digit_of c' with
                | Some d => digits_tail r' (10 * acc + d) (cnt + 1)
                | None => (acc, cnt, l)
                end
            | [] => (acc, cnt, l)
            end
          else (acc, cnt, l)
      end
  | [] => (acc, cnt, [])
  end.

(** A [digitpart] appended to the digits [acc]; [None] when the input
    does not start with a digit. *)
Definition digitpart (l : list ascii) (acc : Z) : option (Z * Z * list ascii) :=
  match l with
  | c :: r =>
      match digit_of c with
      | Some d => Some (digits_tail r (10 * acc + d) 1)
      | None => None
      end
  | [] => None
  end.

Definition sign_of (l : list ascii) : bool * list ascii :=
  match l with
  | c :: r =>
      if Ascii.eqb c "-" then (true, r)
      else if Ascii.eqb c "+" then (false, r)
      else (false, l)
  | [] => (false, [])
  end.

(** [number ::= [digitpart] "." digitpart | digitpart ["."]]: the digits
    as one integer and the number of fractional digits. *)
Definition number (l : list ascii) : option (Z * Z * list ascii) :=
  match digitpart l 0 with
  | Some (n, _, r) =>
      match r with
      | c :: r' =>
          if Ascii.eqb c "." then
            match digitpart r' n with
            | Some (n', f, r'') => Some (n', f, r'')
            | None => Some (n, 0, r')
            end
          else Some (n, 0, r)
      | [] => Some (n, 0, [])
      end
  | None =>
      match l with
      | c :: r' =>
          if Ascii.eqb c "." then digitpart r' 0 else None
      | [] => None
      end
  end.

(** [exponent ::= ("e" | "E") [sign] digitpart], absent when the input
    ends after the number. *)
Definition exponent (l : list ascii) : option Z :=
  match l with
  | [] => Some 0
  | c :: r =>
      if Ascii.eqb (lower c) "e" then
        let '(neg, r') := sign_of r in
        match digitpart r' 0 with
        | Some (x, _, []) => Some (if neg then - x else x)
        | _ => None
        end
      else None
  end.

(** [float(s)] for a string [s]: [None] is the [ValueError]. *)
Definition of_string (s : string) : option spec_float :=
  let '(neg, body) := sign_of (strip (list_ascii_of_string s)) in
  let word := string_of_list_ascii (List.map lower body) in
  if (word =? "inf")%string || (word =? "infinity")%string
  then Some (S754_infinity neg)
  else if (word =? "nan")%string then Some S754_nan
  else
    match number body with
    | Some (n, f, r) =>
        match exponent r with
        | Some x => Some (b64_of_decimal neg n (x - f))
        | None => None
        end
    | None => None
    end.

(** [float(n)] for an integer [n]: [None] is the [OverflowError]. *)
Definition of_int (n : Z) : option spec_float :=
  match b64_of_ratio (n <? 0) (Z.abs n) 1 with
  | S754_infinity _ => None
  | x => Some x
  end.

(** *** [round(x, 2)]

    CPython prints the exact binary value with two fractional digits,
    correctly rounded with exact ties going to the even digit, and reads
    the decimal string back. *)

(** [n / d] rounded to the nearest integer, ties to even ([0 <= n], [0 < d]). *)
Definition div_half_even (n d : Z) : Z :=
  let q := n / d in
  match 2 * (n mod d) ?= d with
  | Lt => q
  | Gt => q + 1
  | Eq => if Z.even q then q else q + 1
  end.

(** The number of hundredths nearest to [m * 2^e], ties to even. *)
Definition cents (m : positive) (e : Z) : Z :=
  if 0 <=? e then 100 * Z.pos m * 2 ^ e
  else div_half_even (100 * Z.pos m) (2 ^ (- e)).

Definition round2 (x : spec_float) : spec_float :=
  match x with
  | S754_finite s m e => b64_of_decimal s (cents m e) (-2)
  | _ => x
  end.

(** *** Rounding half-up, as a reading of "rounded half-up to 2
    fractional digits": the hundredth at or just above the midpoint. *)
Definition div_half_up (n d : Z) : Z := (2 * n + d) / (2 * d).

Definition cents_half_up (m : positive) (e : Z) : Z :=
  if 0 <=? e then 100 * Z.pos m * 2 ^ e
  else div_half_up (100 * Z.pos m) (2 ^ (- e)).

Definition round2_half_up (x : spec_float) : spec_float :=
  match x with
  | S754_finite s m e => b64_of_decimal s (cents_half_up m e) (-2)
  | _ => x
  end.

End PyFloat.

(** ** Python values and built-in operations *)

Module Py.

#[local] Set Warnings "-register-all".

(** The data a provider call hands back: the JSON-shaped response that
    botocore parses into dictionaries with string keys, lists, strings and
    integers ([bool] being a subclass of [int]). *)
Inductive pyval :=
  | PNone
  | PInt (n : Z)
  | PStr (s : string)
  | PList (l : list pyval)
  | PDict (d : gmap string pyval).

(** An instance of [Exception]: its class name and [str(e)]. *)
Record pyerr := PyErr { err_class : string; err_str : string }.

(** What a handler can raise: the framework's [HTTPException], or any
    other exception. *)
Inductive exn :=
  | Error (e : pyerr)
  | HTTPException (status_code : Z) (detail : string).

Definition result (A : Type) : Type := pyerr + A.

Definition ok {A} (a : A) : result A := inr a.
Definition throw {A} (cls msg : string) : result A := inl (PyErr cls msg).

Definition type_name (v : pyval) : string :=
  match v with
  | PNone => "NoneType"
  | PInt _ => "int"
  | PStr _ => "str"
  | PList _ => "list"
  | PDict _ => "dict"
  end.

(** [repr] of the string keys the handlers subscript with (none of them
    contains a quote or a backslash). *)
Definition repr_key (k : string) : string := "'" ++ k ++ "'".

Fixpoint digits_fuel (fuel : nat) (n : Z) (acc : string) : string :=
  match fuel with
  | O => acc
  | S f =>
      let acc' := String (ascii_of_nat (Z.to_nat (48 + n mod 10))) acc in
      if n / 10 =? 0 then acc' else digits_fuel f (n / 10) acc'
  end.

(** [str(n)] for an integer. *)
Definition str_of_Z (n : Z) : string :=
  let a := Z.abs n in
  let d := digits_fuel (S (Z.to_nat (Z.log2 a))) a "" in
  if n <? 0 then "-" ++ d else d.

(** [v[k]] for a string [k]. *)
Definition getitem (v : pyval) (k : string) : result pyval :=
  match v with
  | PDict d =>
      match d !! k with
      | Some x => ok x
      | None => throw "KeyError" (repr_key k)
      end
  | PList _ =>
      throw "TypeError" "list indices must be integers or slices, not str"
  | PStr _ => throw "TypeError" "string indices must be integers, not 'str'"
  | _ => throw "TypeError"
           ("'" ++ type_name v ++ "' object is not subscriptable")
  end.

(** [v[i]] for an integer [i]; a negative index counts from the end. *)
Definition getindex (v : pyval) (i : Z) : result pyval :=
  match v with
  | PList l =>
      let j := if i <? 0 then i + Z.of_nat (List.length l) else i in
      if j <? 0 then throw "IndexError" "list index out of range"
      else match nth_error l (Z.to_nat j) with
           | Some x => ok x
           | None => throw "IndexError" "list index out of range"
           end
  | PStr s =>
      let j := if i <? 0 then i + Z.of_nat (String.length s) else i in
      if j <? 0 then throw "IndexError" "string index out of range"
      else match String.get (Z.to_nat j) s with
           | Some c => ok (PStr (String c EmptyString))
           | None => throw "IndexError" "string index out of range"
           end
  | PDict _ => throw "KeyError" (str_of_Z i)
  | _ => throw "TypeError"
           ("'" ++ type_name v ++ "' object is not subscriptable")
  end.

(** [len(v)]. *)
Definition len (v : pyval) : result Z :=
  match v with
  | PList l => ok (Z.of_nat (List.length l))
  | PStr s => ok (Z.of_nat (String.length s))
  | PDict d => ok (Z.of_nat (size d))
  | _ => throw "TypeError"
           ("object of type '" ++ type_name v ++ "' has no len()")
  end.

(** The items that [for x in v] goes through: the elements of a list, the
    characters of a string, the keys of a dictionary. *)
Definition iter (v : pyval) : result (list pyval) :=
  match v with
  | PList l => ok l
  | PStr s =>
      ok (List.map (fun c => PStr (String c EmptyString))
                   (list_ascii_of_string s))
  | PDict d => ok (List.map (fun kv => PStr (fst kv)) (map_to_list d))
  | _ => throw "TypeError"
           ("'" ++ type_name v ++ "' object is not iterable")
  end.

(** [float(v)]. *)
Definition float (v : pyval) : result spec_float :=
  match v with
  | PStr s =>
      match PyFloat.of_string s with
      | Some x => ok x
      | None =>
          throw "ValueError"
                ("could not convert string to float: " ++ repr_key s)
      end
  | PInt n =>
      match PyFloat.of_int n with
      | Some x => ok x
      | None => throw "OverflowError" "int too large to convert to float"
      end
  | _ => throw "TypeError"
           ("float() argument must be a string or a real number, not '"
              ++ type_name v ++ "'")
  end.

(** The hashable values of [pyval], as dictionary keys. *)
Inductive pykey :=
  | KNone
  | KInt (n : Z)
  | KStr (s : string).

(** [hash(v)] succeeds on [None], integers and strings; lists and
    dictionaries are unhashable. *)
Definition as_key (v : pyval) : result pykey :=
  match v with
  | PNone => ok KNone
  | PInt n => ok (KInt n)
  | PStr s => ok (KStr s)
  | _ => throw "TypeError" ("unhashable type: '" ++ type_name v ++ "'")
  end.

#[global] Instance pykey_eq_dec : EqDecision pykey.
Proof. solve_decision. Defined.

Definition pykey_enc (k : pykey) : unit + (Z + string) :=
  match k with
  | KNone => inl tt
  | KInt n => inr (inl n)
  | KStr s => inr (inr s)
  end.

Definition pykey_dec (x : unit + (Z + string)) : pykey :=
  match x with
  | inl _ => KNone
  | inr (inl n) => KInt n
  | inr (inr s) => KStr s
  end.

#[global] Instance pykey_countable : Countable pykey.
Proof.
  apply (inj_countable' pykey_enc pykey_dec).
  intros []; reflexivity.
Defined.

End Py.

(** ** Calendar dates ([datetime.date])

    The proleptic Gregorian calendar of the [datetime] module: a date is a
    year, a month and a day, and arithmetic goes through the day number
    ([toordinal], [fromordinal]), day 1 being 0001-01-01. *)

Module PyDate.

Import Py.

Record date := Date { year : Z; month : Z; day : Z }.

Definition is_leap (y : Z) : bool :=
  (y mod 4 =? 0) && (negb (y mod 100 =? 0) || (y mod 400 =? 0)).

Definition days_before_year (year : Z) : Z :=
  let y := year - 1 in
  y * 365 + y / 4 - y / 100 + y / 400.

Definition DAYS_IN_MONTH (m : Z) : Z :=
  nth (Z.to_nat m) [-1; 31; 28; 31; 30; 31; 30; 31; 31; 30; 31; 30; 31] 0.

Definition DAYS_BEFORE_MONTH (m : Z) : Z :=
  nth (Z.to_nat m)
      [-1; 0; 31; 59; 90; 120; 151; 181; 212; 243; 273; 304; 334] 0.

Definition days_in_month (y m : Z) : Z :=
  if (m =? 2) && is_leap y then 29 else DAYS_IN_MONTH m.

Definition days_before_month (y m : Z) : Z :=
  DAYS_BEFORE_MONTH m + (if (2 <? m) && is_leap y then 1 else 0).

Definition ymd2ord (y m d : Z) : Z :=
  days_before_year y + days_before_month y m + d.

Definition DI400Y : Z := Eval cbv in days_before_year 401.
Definition DI100Y : Z := Eval cbv in days_before_year 101.
Definition DI4Y : Z := Eval cbv in days_before_year 5.

Definition ord2ymd (ordinal : Z) : date :=
  let n := ordinal - 1 in
  let n400 := n / DI400Y in
  let n := n mod DI400Y in
  let year := n400 * 400 + 1 in
  let n100 := n / DI100Y in
  let n := n mod DI100Y in
  let n4 := n / DI4Y in
  let n := n mod DI4Y in
  let n1 := n / 365 in
  let n := n mod 365 in
  let year := year + n100 * 100 + n4 * 4 + n1 in
  if (n1 =? 4) || (n100 =? 4) then Date (year - 1) 12 31
  else
    let leapyear := (n1 =? 3) && (negb (n4 =? 24) || (n100 =? 3)) in
    let month := Z.shiftr (n + 50) 5 in
    let preceding :=
      DAYS_BEFORE_MONTH month
      + (if (2 <? month) && leapyear then 1 else 0) in
    if n <? preceding then
      let month := month - 1 in
      let preceding :=
        preceding
        - (DAYS_IN_MONTH month
           + (if (month =? 2) && leapyear then 1 else 0)) in
      Date year month (n - preceding + 1)
    else Date year month (n - preceding + 1).

Definition toordinal (d : date) : Z := ymd2ord (year d) (month d) (day d).

Definition MAXORDINAL : Z := 3652059.

(** Day number of 1970-01-01, the epoch of the system clock. *)
Definition EPOCH : Z := 719163.

(** [date.fromordinal] of the day number of a clock reading; the
    [ValueError] is what the constructor raises past year 9999. *)
Definition of_unix_day (days : N) : result date :=
  let o := EPOCH + Z.of_N days in
  if o <=? MAXORDINAL then ok (ord2ymd o)
  else throw "ValueError" "year 10000 is out of range".

(** [d - timedelta(days=n)]. *)
Definition sub_days (d : date) (n : Z) : result date :=
  let o := toordinal d - n in
  if (0 <? o) && (o <=? MAXORDINAL) then ok (ord2ymd o)
  else throw "OverflowError" "date value out of range".

Definition pad (width : nat) (n : Z) : string :=
  let s := str_of_Z n in
  string_of_list_ascii
    (repeat "0"%char (width - String.length s)) ++ s.

(** [d.strftime("%Y-%m-%d")], the year on four digits (C libraries
    differ on years below 1000, which no clock reports). *)
Definition strftime (d : date) : string :=
  pad 4 (year d) ++ "-" ++ pad 2 (month d) ++ "-" ++ pad 2 (day d).

End PyDate.

(** ** The application *)

Module App.

Import Py.

(** *** The credential model *)

Record AWSCreds := {
  access_key : string;
  secret_key : string;
  region : string
}.

(** *** The provider

    Every SDK call is logged; the provider answers a call, knowing the
    calls made before it, with a response or with an exception. *)

Record GroupDefinition := { Type_ : string; Key : string }.

Record CostQuery := {
  TimePeriod_Start : string;
  TimePeriod_End : string;
  Granularity : string;
  Metrics : list string;
  GroupBy : list GroupDefinition
}.

Inductive Call :=
  | NewSession (aws_access_key_id aws_secret_access_key region_name : string)
  | NewClient (service : string)
  | DescribeInstances
  | ListBuckets
  | GetCostAndUsage (q : CostQuery).

Definition Provider : Type := list Call -> Call -> result pyval.

(** The process-wide Prometheus collectors: the value of the counter and
    the number of observations of the histogram, per [endpoint] label
    (the library keeps them as floats, exact on these integers). *)
Record Registry := {
  REQUEST_COUNT : gmap string Z;
  REQUEST_LATENCY : gmap string Z
}.

(** *** Requests and responses *)

(** What a handler returns. *)
Inductive retval :=
  | RStatus (d : gmap string string)
  | RCounts (d : gmap string Z)
  | RCosts (d : gmap pykey spec_float)
  | RTuple (content : string) (code : Z) (headers : gmap string string).

(** The body of a response: the JSON encoding of a returned value, the
    object [{"detail": ...}] of an [HTTPException], the list of errors of
    a failed validation, or a text. *)
Inductive Body :=
  | JSON (v : retval)
  | Detail (detail : string)
  | ValidationErrors
  | Text (s : string).

Record Response := {
  status : Z;
  content_type : string;
  body : Body
}.

(** A request: its method, its path, and its payload once parsed as JSON
    ([PNone] when there is none). *)
Record Request := {
  method : string;
  path : string;
  payload : pyval
}.

(** What surrounds the application: the provider behind boto3, the day
    the system clock shows (in days since 1970-01-01), the text that
    [prometheus_client.generate_latest] renders for a registry, the
    coercion pydantic applies to the value of a [str] field, and the
    answer of the framework (not found, method not allowed, redirect) to
    a request that no route matches. *)
Record Env := {
  provider : Provider;
  unix_day : N;
  generate_latest : Registry -> string;
  str_field : pyval -> option string;
  no_route : Request -> Response
}.

(** *** Handler computations

    The body of a [try] block runs SDK calls and built-in operations: it
    ends with a value or with an exception they raise, and extends the
    log. *)

Definition M (A : Type) : Type := Env -> list Call -> result A * list Call.

Definition ret {A} (a : A) : M A := fun _ log => (inr a, log).

Definition bind {A B} (m : M A) (k : A -> M B) : M B :=
  fun env log =>
    match m env log with
    | (inr a, log') => k a env log'
    | (inl e, log') => (inl e, log')
    end.

(** A built-in operation, whose exception (if any) is raised. *)
Definition lift {A} (r : result A) : M A := fun _ log => (r, log).

(** One SDK call. *)
Definition call (c : Call) : M pyval :=
  fun env log => (provider env log c, (log ++ [c])%list).

(** [datetime.today().date()]. *)
Definition today : M PyDate.date :=
  fun env log => (PyDate.of_unix_day (unix_day env), log).

(** A handler returns a value or raises. *)
Definition Handler (A : Type) : Type :=
  Env -> list Call -> (exn + A) * list Call.

Definition raise {A} (e : exn) : Handler A := fun _ log => (inl e, log).

(** [try: m except Exception as e: h(e)]. *)
Definition try_except {A} (m : M A) (h : pyerr -> Handler A)
  : Handler A :=
  fun env log =>
    match m env log with
    | (inr a, log') => (inr a, log')
    | (inl e, log') => h e env log'
    end.

Declare Scope handler_scope.
Delimit Scope handler_scope with handler.
Notation "'do' x <- m ; k" := (bind m (fun x => k))
  (at level 10, x name, m at level 100, k at level 200) : handler_scope.
Local Open Scope handler_scope.

(** *** Session factory *)

Record Clients := { ec2 : pyval; s3 : pyval; ce : pyval }.

Definition get_clients (creds : AWSCreds) : M Clients :=
  do _ <- call (NewSession (access_key creds) (secret_key creds)
                           (region creds));
  do c_ec2 <- call (NewClient "ec2");
  do c_s3 <- call (NewClient "s3");
  do c_ce <- call (NewClient "ce");
  ret {| ec2 := c_ec2; s3 := c_s3; ce := c_ce |}.

(** The calls [get_clients] makes. *)
Definition client_calls (creds : AWSCreds) : list Call :=
  [ NewSession (access_key creds) (secret_key creds) (region creds);
    NewClient "ec2"; NewClient "s3"; NewClient "ce" ].

(** *** [/health] and [/metrics] *)

Definition health : retval := RStatus {[ "status" := "ok" ]}.

Definition CONTENT_TYPE_LATEST : string :=
  "text/plain; version=0.0.4; charset=utf-8".

Definition metrics (env : Env) (reg : Registry) : retval :=
  RTuple (generate_latest env reg) 200
         {[ "Content-Type" := CONTENT_TYPE_LATEST ]}.

(** *** [/resources] *)

(** [sum(len(res["Instances"]) for res in reservations)], from [acc]. *)
Fixpoint sum_instances (reservations : list pyval) (acc : Z) : result Z :=
  match reservations with
  | [] => ok acc
  | res :: rest =>
      match getitem res "Instances" with
      | inr insts =>
          match len insts with
          | inr n => sum_instances rest (acc + n)
          | inl e => inl e
          end
      | inl e => inl e
      end
  end.

(** The [try] block of [get_resources]. *)
Definition resources_body (creds : AWSCreds) : M retval :=
  do clients <- get_clients creds;
  do instances <- call DescribeInstances;
  do reservations <- lift (getitem instances "Reservations");
  do items <- lift (iter reservations);
  do instance_count <- lift (sum_instances items 0);
  do buckets <- call ListBuckets;
  do bucket_list <- lift (getitem buckets "Buckets");
  do bucket_count <- lift (len bucket_list);
  ret (RCounts {[ "ec2_instances" := instance_count;
                  "s3_buckets" := bucket_count ]}).

Definition get_resources (creds : AWSCreds) : Handler retval :=
  try_except (resources_body creds)
             (fun e => raise (HTTPException 400 (err_str e))).

(** *** [/cost] *)

(** The service and the rounded amount of one group:
    [group["Keys"][0]] and
    [round(float(group["Metrics"]["UnblendedCost"]["Amount"]), 2)],
    the service being hashed last, when it is stored. *)
Definition group_entry (group : pyval) : result (pykey * spec_float) :=
  match getitem group "Keys" with
  | inl e => inl e
  | inr keys =>
  match getindex keys 0 with
  | inl e => inl e
  | inr service =>
  match getitem group "Metrics" with
  | inl e => inl e
  | inr ms =>
  match getitem ms "UnblendedCost" with
  | inl e => inl e
  | inr uc =>
  match getitem uc "Amount" with
  | inl e => inl e
  | inr amount =>
  match float amount with
  | inl e => inl e
  | inr x =>
  match as_key service with
  | inl e => inl e
  | inr k => ok (k, PyFloat.round2 x)
  end end end end end end end.

(** The loop over the groups, [costs[service] = ...] at each turn. *)
Fixpoint cost_loop (groups : list pyval) (costs : gmap pykey spec_float)
  : result (gmap pykey spec_float) :=
  match groups with
  | [] => ok costs
  | group :: rest =>
      match group_entry group with
      | inr (k, v) => cost_loop rest (<[ k := v ]> costs)
      | inl e => inl e
      end
  end.

(** What the loop goes through: [response["ResultsByTime"][0]["Groups"]]. *)
Definition first_groups (response : pyval) : result (list pyval) :=
  match getitem response "ResultsByTime" with
  | inl e => inl e
  | inr results =>
  match getindex results 0 with
  | inl e => inl e
  | inr bucket =>
  match getitem bucket "Groups" with
  | inl e => inl e
  | inr groups => iter groups
  end end end.

Definition cost_query (start end_ : PyDate.date) : CostQuery :=
  {| TimePeriod_Start := PyDate.strftime start;
     TimePeriod_End := PyDate.strftime end_;
     Granularity := "MONTHLY";
     Metrics := ["UnblendedCost"];
     GroupBy := [ {| Type_ := "DIMENSION"; Key := "SERVICE" |} ] |}.

(** The [try] block of [get_cost]. *)
Definition cost_body (creds : AWSCreds) : M retval :=
  do clients <- get_clients creds;
  do end_ <- today;
  do start <- lift (PyDate.sub_days end_ 30);
  do response <- call (GetCostAndUsage (cost_query start end_));
  do items <- lift (first_groups response);
  do costs <- lift (cost_loop items ∅);
  ret (RCosts costs).

Definition get_cost (creds : AWSCreds) : Handler retval :=
  try_except (cost_body creds)
             (fun e => raise (HTTPException 400 (err_str e))).

(** *** The framework around the handlers

    FastAPI validates the payload of a request against the model the
    handler declares, calls the handler, and turns what it returns or
    raises into a response. *)

(** The model [AWSCreds(BaseModel)]: two required fields and a default. *)
Definition validate (env : Env) (v : pyval) : option AWSCreds :=
  match v with
  | PDict d =>
      match d !! "access_key", d !! "secret_key" with
      | Some a, Some s =>
          match str_field env a, str_field env s,
                match d !! "region" with
                | Some r => str_field env r
                | None => Some "us-east-1"
                end
          with
          | Some a', Some s', Some r' =>
              Some {| access_key := a'; secret_key := s'; region := r' |}
          | _, _, _ => None
          end
      | _, _ => None
      end
  | _ => None
  end.

Definition is_finite (x : spec_float) : bool :=
  match x with
  | S754_zero _ | S754_finite _ _ _ => true
  | _ => false
  end.

(** [json.dumps(..., allow_nan=False)] refuses infinities and NaN. *)
Definition json_compliant (v : retval) : bool :=
  match v with
  | RCosts d => forallb (fun kv => is_finite (snd kv)) (map_to_list d)
  | _ => true
  end.

Definition server_error : Response :=
  {| status := 500; content_type := "text/plain; charset=utf-8";
     body := Text "Internal Server Error" |}.

Definition unprocessable : Response :=
  {| status := 422; content_type := "application/json";
     body := ValidationErrors |}.

(** The default response class encodes the returned value as JSON, with
    status 200; an [HTTPException] becomes its status code and detail;
    anything else that is raised is a server error. *)
Definition respond (r : exn + retval) : Response :=
  match r with
  | inr v =>
      if json_compliant v
      then {| status := 200; content_type := "application/json";
              body := JSON v |}
      else server_error
  | inl (HTTPException c d) =>
      {| status := c; content_type := "application/json"; body := Detail d |}
  | inl (Error _) => server_error
  end.

Inductive Route := Health | Metrics_ | Resources | Cost.

(** The four decorated handlers. *)
Definition route (m p : string) : option Route :=
  if (m =? "GET")%string && (p =? "/health")%string then Some Health
  else if (m =? "GET")%string && (p =? "/metrics")%string then Some Metrics_
  else if (m =? "POST")%string && (p =? "/resources")%string
       then Some Resources
  else if (m =? "POST")%string && (p =? "/cost")%string then Some Cost
  else None.

Record World := {
  calls : list Call;
  registry : Registry
}.

(** A handler with a [creds: AWSCreds] parameter. *)
Definition with_creds (env : Env) (req : Request)
  (h : AWSCreds -> Handler retval) (w : World) : Response * World :=
  match validate env (payload req) with
  | Some creds =>
      let '(r, log) := h creds env (calls w) in
      (respond r, {| calls := log; registry := registry w |})
  | None => (unprocessable, w)
  end.

Definition endpoint (env : Env) (r : Route) (req : Request) (w : World)
  : Response * World :=
  match r with
  | Health => (respond (inr health), w)
  | Metrics_ => (respond (inr (metrics env (registry w))), w)
  | Resources => with_creds env req get_resources w
  | Cost => with_creds env req get_cost w
  end.

Definition dispatch (env : Env) (req : Request) (w : World)
  : Response * World :=
  match route (method req) (path req) with
  | Some r => endpoint env r req w
  | None => (no_route env req, w)
  end.

(** *** The metrics middleware

    The coroutine has one suspension point, [await call_next(request)]:
    what precedes it ([enter]) and what follows it ([leave]) each run
    without interruption on the event loop. *)

Definition bump (label : string) (m : gmap string Z) : gmap string Z :=
  <[ label := default 0 (m !! label) + 1 ]> m.

(** [REQUEST_COUNT.labels(endpoint=endpoint).inc()] *)
Definition enter (req : Request) (w : World) : World :=
  {| calls := calls w;
     registry :=
       {| REQUEST_COUNT := bump (path req) (REQUEST_COUNT (registry w));
          REQUEST_LATENCY := REQUEST_LATENCY (registry w) |} |}.

(** Leaving [with REQUEST_LATENCY.labels(endpoint=endpoint).time()]. *)
Definition leave (req : Request) (w : World) : World :=
  {| calls := calls w;
     registry :=
       {| REQUEST_COUNT := REQUEST_COUNT (registry w);
          REQUEST_LATENCY :=
            bump (path req) (REQUEST_LATENCY (registry w)) |} |}.

Definition metrics_middleware (req : Request)
  (call_next : Request -> World -> Response * World) (w : World)
  : Response * World :=
  let '(response, w') := call_next req (enter req w) in
  (response, leave req w').

(** The application: every request goes through the middleware. *)
Definition app (env : Env) (req : Request) (w : World) : Response * World :=
  metrics_middleware req (dispatch env) w.

(** The request counter of a path. *)
Definition count (w : World) (label : string) : Z :=
  default 0 (REQUEST_COUNT (registry w) !! label).

(** *** Requests in flight

    Several requests are served at once: the event loop runs the [enter]
    and [leave] parts of their middleware one at a time, in any order,
    and the handler of a request runs between the two parts of its own
    middleware. *)






(** One for a request to the path [p]. *)
Definition hit (p : string) (req : Request) : Z :=
  if (path req =? p)%string then 1 else 0.


Definition sumZ (l : list Z) : Z := fold_right Z.add 0 l.




(** *** Vocabulary of the statements *)

(** The provider answers each of the calls [cs], made in this order after
    [log], with a value. *)
Fixpoint succeeds (env : Env) (log : list Call) (cs : list Call) : bool :=
  match cs with
  | [] => true
  | c :: cs' =>
      match provider env log c with
      | inr _ => succeeds env (log ++ [c])%list cs'
      | inl _ => false
      end
  end.

(** The sum, over the reservations, of the length of the instance list. *)
Definition instance_total (instance_lists : list (list pyval)) : Z :=
  sumZ (List.map (fun l => Z.of_nat (List.length l)) instance_lists).

(** [group] is a service group of the billing response: its first key is
    [service] and its unblended-cost amount is [amount]. *)
Definition is_group (group service amount : pyval) : Prop :=
  exists keys ms uc,
    getitem group "Keys" = ok keys /\ getindex keys 0 = ok service /\
    getitem group "Metrics" = ok ms /\
    getitem ms "UnblendedCost" = ok uc /\ getitem uc "Amount" = ok amount.

(** The float that a literal of the source text denotes. *)
Definition float_literal (s : string) : spec_float :=
  default S754_nan (PyFloat.of_string s).

(** [c] hundredths is nearest to [m * 2^e], an exact tie going to the
    even [c]. *)
Definition nearest_even_hundredth (m e c : Z) : Prop :=
  if 0 <=? e then c = 100 * m * 2 ^ e
  else
    let d := 2 ^ (- e) in
    2 * Z.abs (100 * m - c * d) <= d /\
    (2 * Z.abs (100 * m - c * d) = d -> Z.even c = true).

(** [f] holds on the [n] integers from [lo] on. *)
Fixpoint check_range (f : Z -> bool) (lo : Z) (n : nat) : bool :=
  match n with
  | O => true
  | S n' => f lo && check_range f (lo + 1) n'
  end.

(** On day [r + 1] of the 400-year cycle: converting the day number to a
    date and back gives the same day number, and the date has a month, a
    day and a year of the cycle. *)
Definition cycle_date_ok (d : PyDate.date) (r : Z) : bool :=
  (PyDate.toordinal d =? r + 1)
  && (1 <=? PyDate.year d) && (PyDate.year d <=? 400)
  && (1 <=? PyDate.month d) && (PyDate.month d <=? 12)
  && (1 <=? PyDate.day d) && (PyDate.day d <=? 31)
  && ((145730 <? r) || (PyDate.year d <=? 399)).

(** A date text [YYYY-MM-DD]. *)
Definition is_digit (c : ascii) : bool :=
  match PyFloat.digit_of c with Some _ => true | None => false end.

Definition is_iso_date (s : string) : bool :=
  match list_ascii_of_string s with
  | [y1; y2; y3; y4; h1; m1; m2; h2; d1; d2] =>
      forallb is_digit [y1; y2; y3; y4; m1; m2; d1; d2]
      && Ascii.eqb h1 "-" && Ascii.eqb h2 "-"
  | _ => false
  end.

(** A text of [n] decimal digits. *)
Definition fixed_digits (n : nat) (s : string) : bool :=
  Nat.eqb (String.length s) n
  && forallb is_digit (list_ascii_of_string s).

(** The last day the clock can show: 9999-12-31. *)
Definition LAST_DAY : N := 2932896.

(** How many entries of a mapping have the key [k]. *)
Definition entries_with (k : pykey) (m : gmap pykey spec_float) : nat :=
  List.length
    (List.filter (fun kv => bool_decide (fst kv = k)) (map_to_list m)).

(** [group] has a service key, which is not [k]. *)
Definition other_service (k : pykey) (group : pyval) : Prop :=
  forall v, group_entry group <> ok (k, v).

(** *** Test doubles *)

Record Mock := {
  mock_instances : result pyval;
  mock_buckets : result pyval;
  mock_billing : result pyval
}.

Definition mock_provider (m : Mock) : Provider :=
  fun _ c =>
    match c with
    | NewSession _ _ _ | NewClient _ => ok PNone
    | DescribeInstances => mock_instances m
    | ListBuckets => mock_buckets m
    | GetCostAndUsage _ => mock_billing m
    end.

Definition not_found : Response :=
  {| status := 404; content_type := "application/json";
     body := Detail "Not Found" |}.

Definition mock_env (m : Mock) (day : N) : Env :=
  {| provider := mock_provider m;
     unix_day := day;
     generate_latest := fun _ => "# HELP aws_dashboard_requests_total";
     str_field := fun v => match v with PStr s => Some s | _ => None end;
     no_route := fun _ => not_found |}.

Definition reservation (instances : list pyval) : pyval :=
  PDict {[ "ReservationId" := PStr "r-0"; "Instances" := PList instances ]}.

Definition instance (id : string) : pyval :=
  PDict {[ "InstanceId" := PStr id ]}.

Definition bucket (name : string) : pyval := PDict {[ "Name" := PStr name ]}.

Definition service_group (service amount : string) : pyval :=
  PDict {[ "Keys" := PList [PStr service];
           "Metrics" :=
             PDict {[ "UnblendedCost" :=
                        PDict {[ "Amount" := PStr amount;
                                 "Unit" := PStr "USD" ]} ]} ]}.

Definition time_bucket (groups : list pyval) : pyval :=
  PDict {[ "Estimated" := PInt 1; "Groups" := PList groups ]}.

Definition billing (buckets : list pyval) : pyval :=
  PDict {[ "ResultsByTime" := PList buckets ]}.

Definition some_creds : AWSCreds :=
  {| access_key := "AKIAEXAMPLE"; secret_key := "secret";
     region := "us-east-1" |}.

Definition quiet : Mock :=
  {| mock_instances := ok (PDict {[ "Reservations" := PList [] ]});
     mock_buckets := ok (PDict {[ "Buckets" := PList [] ]});
     mock_billing := ok (billing [time_bucket []]) |}.

Definition auth_failure : pyerr :=
  PyErr "ClientError"
        "An error occurred (AuthFailure) when calling the operation".

Definition denied : Mock :=
  {| mock_instances := inl auth_failure;
     mock_buckets := inl auth_failure;
     mock_billing := inl auth_failure |}.

Definition post_resources : Request :=
  {| method := "POST"; path := "/resources";
     payload := PDict {[ "access_key" := PStr "AKIAEXAMPLE";
                         "secret_key" := PStr "secret" ]} |}.

Definition empty_world : World :=
  {| calls := [];
     registry := {| REQUEST_COUNT := ∅; REQUEST_LATENCY := ∅ |} |}.

(** *** Vocabulary of the further properties *)

(** The number of latency observations recorded for a path. *)
Definition observations (w : World) (label : string) : Z :=
  default 0 (REQUEST_LATENCY (registry w) !! label).


(** The calls of a request to [/resources] that goes through. *)
Definition resources_calls (creds : AWSCreds) : list Call :=
  client_calls creds ++ [DescribeInstances; ListBuckets].

(** [sum(len(res["Instances"]) for res in instances["Reservations"])]. *)
Definition count_instances (instances : pyval) : result Z :=
  match getitem instances "Reservations" with
  | inl e => inl e
  | inr reservations =>
      match iter reservations with
      | inl e => inl e
      | inr items => sum_instances items 0
      end
  end.

(** The region of a payload: the field, or the default when absent. *)
Definition region_is (d : gmap string pyval) (r : string) : Prop :=
  (d !! "region" = None /\ r = "us-east-1") \/ d !! "region" = Some (PStr r).

(** ** Properties *)

Local Open Scope list_scope.

(** *** Running the handler computations *)

Lemma succeeds_app env log cs1 cs2 :
  succeeds env log (cs1 ++ cs2) =
  succeeds env log cs1 && succeeds env (log ++ cs1) cs2.
Proof.
  revert log. induction cs1 as [|c cs1 IH]; intros log; simpl.
  - now rewrite app_nil_r.
  - destruct (provider env log c); [reflexivity|].
    rewrite IH. now rewrite <- app_assoc.
Qed.

Lemma get_clients_ok creds env log :
  succeeds env log (client_calls creds) = true ->
  exists cl, get_clients creds env log = (inr cl, (log ++ client_calls creds)%list).
Proof.
  unfold get_clients, client_calls, bind, call, ret. simpl.
  repeat match goal with
  | |- context [provider env ?l ?c] =>
      destruct (provider env l c) eqn:?; [discriminate|]
  end.
  intros _. eexists. repeat rewrite <- app_assoc. reflexivity.
Qed.

Lemma get_clients_inv creds env log cl log' :
  get_clients creds env log = (inr cl, log') ->
  succeeds env log (client_calls creds) = true /\
  log' = (log ++ client_calls creds)%list.
Proof.
  unfold get_clients, client_calls, bind, call, ret. simpl.
  repeat match goal with
  | |- context [provider env ?l ?c] =>
      destruct (provider env l c) eqn:?; [discriminate|]
  end.
  intros [= _ <-]. repeat rewrite <- app_assoc. auto.
Qed.

(** *** [/resources] *)

Lemma sum_instances_lists reservations instance_lists acc :
  Forall2 (fun res insts => getitem res "Instances" = ok (PList insts))
          reservations instance_lists ->
  sum_instances reservations acc = ok (acc + instance_total instance_lists).
Proof.
  intros HF. revert acc.
  induction HF as [|res insts rs iss Hres _ IH]; intros acc.
  - simpl. unfold instance_total, sumZ. simpl. f_equal. lia.
  - cbn [sum_instances]. rewrite Hres. cbn [len ok]. rewrite IH.
    unfold instance_total, sumZ. simpl. f_equal. lia.
Qed.

(** C1: with a provider that answers the compute listing with
    reservations and the storage listing with a bucket list, the handler
    of [/resources] returns exactly the mapping of ["ec2_instances"] to
    the sum of the lengths of the instance lists and of ["s3_buckets"] to
    the length of the bucket list. *)
Theorem get_resources_counts env creds log instances buckets
    reservations instance_lists bucket_list :
  succeeds env log (client_calls creds) = true ->
  provider env (log ++ client_calls creds) DescribeInstances = ok instances ->
  getitem instances "Reservations" = ok (PList reservations) ->
  Forall2 (fun res insts => getitem res "Instances" = ok (PList insts))
          reservations instance_lists ->
  provider env (log ++ client_calls creds ++ [DescribeInstances]) ListBuckets
    = ok buckets ->
  getitem buckets "Buckets" = ok (PList bucket_list) ->
  fst (get_resources creds env log) =
  inr (RCounts {[ "ec2_instances" := instance_total instance_lists;
                  "s3_buckets" := Z.of_nat (List.length bucket_list) ]}).
Proof.
  intros Hcl Hdesc Hres Hinst Hlist Hbuckets.
  destruct (get_clients_ok creds env log Hcl) as [cl Hrun].
  unfold get_resources, try_except, resources_body, bind.
  rewrite Hrun. unfold call, lift, ret.
  rewrite Hdesc. unfold ok in *. rewrite Hres. cbn [iter ok].
  rewrite (sum_instances_lists _ _ _ Hinst). unfold ok.
  rewrite <- app_assoc. rewrite Hlist, Hbuckets.
  cbn [len ok fst]. reflexivity.
Qed.

Lemma get_resources_counts_witness :
  fst (get_resources some_creds
         (mock_env
            {| mock_instances :=
                 ok (PDict {[ "Reservations" :=
                      PList [ reservation [instance "i-1"; instance "i-2"];
                              reservation [];
                              reservation [instance "i-3"] ] ]});
               mock_buckets :=
                 ok (PDict {[ "Buckets" := PList [bucket "a"; bucket "b"] ]});
               mock_billing := ok PNone |} 20000) []) =
  inr (RCounts {[ "ec2_instances" := 3; "s3_buckets" := 2 ]}).
Proof.
  eapply get_resources_counts with
    (instance_lists :=
       [ [instance "i-1"; instance "i-2"]; []; [instance "i-3"] ])
    (bucket_list := [bucket "a"; bucket "b"]).
  - reflexivity.
  - reflexivity.
  - reflexivity.
  - repeat constructor.
  - reflexivity.
  - reflexivity.
Defined.

(** *** Dates *)

Lemma check_range_spec f lo n :
  check_range f lo n = true ->
  forall i, lo <= i < lo + Z.of_nat n -> f i = true.
Proof.
  revert lo. induction n as [|n IH]; intros lo Hc i Hi.
  - simpl in Hi. lia.
  - cbn [check_range] in Hc. apply andb_prop in Hc as [H0 Hc].
    destruct (Z.eq_dec i lo) as [->|Hne]; [exact H0|].
    apply (IH (lo + 1) Hc). lia.
Qed.

Lemma cycle_checked :
  check_range (fun r => cycle_date_ok (PyDate.ord2ymd (r + 1)) r)
              0 (Z.to_nat 146097) = true.
Proof. vm_cast_no_check (eq_refl true). Qed.

Lemma cycle_ok_all r :
  0 <= r < 146097 -> cycle_date_ok (PyDate.ord2ymd (r + 1)) r = true.
Proof.
  intros Hr.
  apply (check_range_spec
           (fun r => cycle_date_ok (PyDate.ord2ymd (r + 1)) r)
           0 _ cycle_checked).
  rewrite Z2Nat.id; lia.
Qed.

Lemma is_leap_shift y k : PyDate.is_leap (y + 400 * k) = PyDate.is_leap y.
Proof.
  unfold PyDate.is_leap.
  replace ((y + 400 * k) mod 4) with (y mod 4)
    by (replace (y + 400 * k) with (y + (100 * k) * 4) by lia;
        now rewrite Z_mod_plus_full).
  replace ((y + 400 * k) mod 100) with (y mod 100)
    by (replace (y + 400 * k) with (y + (4 * k) * 100) by lia;
        now rewrite Z_mod_plus_full).
  replace ((y + 400 * k) mod 400) with (y mod 400)
    by (replace (y + 400 * k) with (y + k * 400) by lia;
        now rewrite Z_mod_plus_full).
  reflexivity.
Qed.

Lemma days_before_year_shift y k :
  PyDate.days_before_year (y + 400 * k) =
  PyDate.days_before_year y + 146097 * k.
Proof.
  unfold PyDate.days_before_year. cbv zeta.
  replace ((y + 400 * k - 1) / 4) with ((y - 1) / 4 + 100 * k)
    by (replace (y + 400 * k - 1) with (y - 1 + (100 * k) * 4) by lia;
        now rewrite Z_div_plus_full).
  replace ((y + 400 * k - 1) / 100) with ((y - 1) / 100 + 4 * k)
    by (replace (y + 400 * k - 1) with (y - 1 + (4 * k) * 100) by lia;
        now rewrite Z_div_plus_full).
  replace ((y + 400 * k - 1) / 400) with ((y - 1) / 400 + k)
    by (replace (y + 400 * k - 1) with (y - 1 + k * 400) by lia;
        now rewrite Z_div_plus_full).
  lia.
Qed.

Lemma ymd2ord_shift y m d k :
  PyDate.ymd2ord (y + 400 * k) m d = PyDate.ymd2ord y m d + 146097 * k.
Proof.
  unfold PyDate.ymd2ord, PyDate.days_before_month.
  rewrite is_leap_shift, days_before_year_shift. lia.
Qed.

(** A day number is a day of the 400-year cycle, so many cycles later. *)
Lemma ord2ymd_shift o :
  PyDate.ord2ymd o =
  let d := PyDate.ord2ymd ((o - 1) mod 146097 + 1) in
  PyDate.Date (PyDate.year d + 400 * ((o - 1) / 146097))
              (PyDate.month d) (PyDate.day d).
Proof.
  unfold PyDate.ord2ymd. change PyDate.DI400Y with 146097.
  set (q := (o - 1) / 146097). set (r := (o - 1) mod 146097).
  assert (Hr : 0 <= r < 146097) by (apply Z.mod_pos_bound; lia).
  replace (r + 1 - 1) with r by lia.
  rewrite (Z.div_small r 146097), (Z.mod_small r 146097) by lia.
  cbv zeta.
  repeat match goal with
  | |- context [if ?b then _ else _] => destruct b
  end; cbn [PyDate.year PyDate.month PyDate.day]; f_equal; lia.
Qed.

Lemma cycle_date_facts d r :
  cycle_date_ok d r = true ->
  PyDate.toordinal d = r + 1 /\
  1 <= PyDate.year d <= 400 /\
  1 <= PyDate.month d <= 12 /\
  1 <= PyDate.day d <= 31 /\
  (r <= 145730 -> PyDate.year d <= 399).
Proof.
  unfold cycle_date_ok. intros Hc.
  apply andb_prop in Hc as [Hc H8]. apply andb_prop in Hc as [Hc H7].
  apply andb_prop in Hc as [Hc H6]. apply andb_prop in Hc as [Hc H5].
  apply andb_prop in Hc as [Hc H4]. apply andb_prop in Hc as [Hc H3].
  apply andb_prop in Hc as [H1 H2].
  apply Z.eqb_eq in H1. apply Z.leb_le in H2, H3, H4, H5, H6, H7.
  repeat split; try assumption.
  intros Hle. apply orb_prop in H8 as [H8|H8].
  - apply Z.ltb_lt in H8. lia.
  - now apply Z.leb_le in H8.
Qed.

Lemma cycle_facts r :
  0 <= r < 146097 ->
  PyDate.toordinal (PyDate.ord2ymd (r + 1)) = r + 1 /\
  1 <= PyDate.year (PyDate.ord2ymd (r + 1)) <= 400 /\
  1 <= PyDate.month (PyDate.ord2ymd (r + 1)) <= 12 /\
  1 <= PyDate.day (PyDate.ord2ymd (r + 1)) <= 31 /\
  (r <= 145730 -> PyDate.year (PyDate.ord2ymd (r + 1)) <= 399).
Proof.
  intros Hr. apply cycle_date_facts. exact (cycle_ok_all r Hr).
Qed.

Lemma toordinal_shift d k :
  PyDate.toordinal
    (PyDate.Date (PyDate.year d + 400 * k) (PyDate.month d) (PyDate.day d))
  = PyDate.toordinal d + 146097 * k.
Proof. apply ymd2ord_shift. Qed.

Lemma toordinal_ord2ymd o : PyDate.toordinal (PyDate.ord2ymd o) = o.
Proof.
  rewrite ord2ymd_shift. cbv zeta. rewrite toordinal_shift.
  pose proof (Z.mod_pos_bound (o - 1) 146097 ltac:(lia)) as Hr.
  pose proof (Z.div_mod (o - 1) 146097 ltac:(lia)) as Hqr.
  destruct (cycle_facts _ Hr) as [Hc _]. rewrite Hc. lia.
Qed.

Lemma ord2ymd_range o :
  719133 <= o <= PyDate.MAXORDINAL ->
  1000 <= PyDate.year (PyDate.ord2ymd o) <= 9999 /\
  1 <= PyDate.month (PyDate.ord2ymd o) <= 12 /\
  1 <= PyDate.day (PyDate.ord2ymd o) <= 31.
Proof.
  unfold PyDate.MAXORDINAL. intros Ho. rewrite ord2ymd_shift. cbv zeta.
  pose proof (Z.mod_pos_bound (o - 1) 146097 ltac:(lia)) as Hr.
  pose proof (Z.div_mod (o - 1) 146097 ltac:(lia)) as Hqr.
  destruct (cycle_facts _ Hr) as (_ & Hy & Hm & Hd & Hlast).
  cbn [PyDate.year PyDate.month PyDate.day].
  generalize dependent ((o - 1) mod 146097). intros r.
  generalize ((o - 1) / 146097). intros q.
  generalize (PyDate.ord2ymd (r + 1)). intros d. intros.
  assert (Hq : 4 <= q <= 24) by lia.
  assert (Hr' : q = 24 -> r <= 145730) by lia.
  destruct (Z.eq_dec q 24) as [Hq24|Hq24];
    [specialize (Hlast (Hr' Hq24))|]; lia.
Qed.

Lemma year_digits y :
  1000 <= y <= 9999 -> fixed_digits 4 (PyDate.pad 4 y) = true.
Proof.
  intros Hy.
  apply (check_range_spec (fun y => fixed_digits 4 (PyDate.pad 4 y))
                          1000 (Z.to_nat 9000)).
  - vm_cast_no_check (eq_refl true).
  - rewrite Z2Nat.id; lia.
Qed.

Lemma day_digits d :
  1 <= d <= 31 -> fixed_digits 2 (PyDate.pad 2 d) = true.
Proof.
  intros Hd.
  apply (check_range_spec (fun d => fixed_digits 2 (PyDate.pad 2 d))
                          1 (Z.to_nat 31)).
  - vm_cast_no_check (eq_refl true).
  - rewrite Z2Nat.id; lia.
Qed.

Lemma list_ascii_app a b :
  list_ascii_of_string (a ++ b)%string =
  list_ascii_of_string a ++ list_ascii_of_string b.
Proof. induction a as [|c a IH]; simpl; [reflexivity|now rewrite IH]. Qed.

Lemma list_ascii_length a :
  List.length (list_ascii_of_string a) = String.length a.
Proof. induction a as [|c a IH]; simpl; [reflexivity|now rewrite IH]. Qed.

Lemma iso_date_parts y m d :
  fixed_digits 4 y = true -> fixed_digits 2 m = true ->
  fixed_digits 2 d = true ->
  is_iso_date (y ++ "-" ++ m ++ "-" ++ d)%string = true.
Proof.
  unfold fixed_digits, is_iso_date. intros Hy Hm Hd.
  apply andb_prop in Hy as [Ly Dy]. apply andb_prop in Hm as [Lm Dm].
  apply andb_prop in Hd as [Ld Dd].
  rewrite !list_ascii_app.
  rewrite <- (list_ascii_length y) in Ly.
  rewrite <- (list_ascii_length m) in Lm.
  rewrite <- (list_ascii_length d) in Ld.
  destruct (list_ascii_of_string y) as [|y1 [|y2 [|y3 [|y4 [|]]]]];
    try discriminate Ly.
  destruct (list_ascii_of_string m) as [|m1 [|m2 [|]]]; try discriminate Lm.
  destruct (list_ascii_of_string d) as [|d1 [|d2 [|]]]; try discriminate Ld.
  cbn [forallb] in Dy, Dm, Dd.
  repeat match goal with
  | H : (_ && _)%bool = true |- _ => apply andb_prop in H as [? ?]
  end.
  cbn. repeat (apply andb_true_intro; split); auto.
Qed.

Lemma strftime_iso d :
  1000 <= PyDate.year d <= 9999 -> 1 <= PyDate.month d <= 12 ->
  1 <= PyDate.day d <= 31 ->
  is_iso_date (PyDate.strftime d) = true.
Proof.
  intros Hy Hm Hd. unfold PyDate.strftime.
  apply iso_date_parts; [now apply year_digits| |now apply day_digits].
  apply day_digits. lia.
Qed.

(** What the clock shows is a date of the calendar, and so is the day
    thirty days before it. *)
Lemma clock_facts day td :
  PyDate.of_unix_day day = ok td ->
  exists start,
    PyDate.sub_days td 30 = ok start /\
    PyDate.toordinal td = PyDate.EPOCH + Z.of_N day /\
    PyDate.toordinal start = PyDate.toordinal td - 30 /\
    is_iso_date (PyDate.strftime td) = true /\
    is_iso_date (PyDate.strftime start) = true.
Proof.
  unfold PyDate.of_unix_day. cbv zeta.
  destruct (_ <=? _) eqn:Hle; [|discriminate].
  apply Z.leb_le in Hle. intros [= <-].
  unfold PyDate.sub_days. cbv zeta. rewrite toordinal_ord2ymd.
  unfold PyDate.EPOCH, PyDate.MAXORDINAL in *.
  replace ((0 <? 719163 + Z.of_N day - 30)
           && (719163 + Z.of_N day - 30 <=? 3652059))%bool with true
    by (symmetry; apply andb_true_intro; split;
        [apply Z.ltb_lt | apply Z.leb_le]; lia).
  eexists. split; [reflexivity|]. rewrite toordinal_ord2ymd.
  split; [reflexivity|]. split; [reflexivity|].
  split; apply strftime_iso;
    apply ord2ymd_range; unfold PyDate.MAXORDINAL; lia.
Qed.

Lemma clock_ok day :
  (day <= LAST_DAY)%N ->
  exists td, PyDate.of_unix_day day = ok td.
Proof.
  unfold LAST_DAY, PyDate.of_unix_day, PyDate.EPOCH, PyDate.MAXORDINAL.
  intros Hd. cbv zeta.
  destruct (_ <=? _) eqn:Hle; [eexists; reflexivity|].
  apply Z.leb_gt in Hle. lia.
Qed.

(** *** Rounding *)

Lemma div_half_even_nearest n d :
  0 < d ->
  2 * Z.abs (n - PyFloat.div_half_even n d * d) <= d /\
  (2 * Z.abs (n - PyFloat.div_half_even n d * d) = d ->
   Z.even (PyFloat.div_half_even n d) = true).
Proof.
  intros Hd. unfold PyFloat.div_half_even. cbv zeta.
  pose proof (Z.div_mod n d ltac:(lia)) as Hn.
  pose proof (Z.mod_pos_bound n d Hd) as Hr.
  destruct (Z.compare_spec (2 * (n mod d)) d) as [He|Hl|Hg].
  - destruct (Z.even (n / d)) eqn:Hev.
    + split; [nia|]. intros _. exact Hev.
    + split; [nia|]. intros _.
      rewrite Z.add_1_r, Z.even_succ, <- Z.negb_even, Hev. reflexivity.
  - split; nia.
  - split; nia.
Qed.

Lemma cents_nearest m e :
  nearest_even_hundredth (Z.pos m) e (PyFloat.cents m e).
Proof.
  unfold nearest_even_hundredth, PyFloat.cents.
  destruct (0 <=? e) eqn:He; [reflexivity|].
  apply Z.leb_gt in He. cbv zeta.
  apply div_half_even_nearest. apply Z.pow_pos_nonneg; lia.
Qed.

(** *** [/cost] *)

Lemma group_entry_of_group g service amount x k :
  is_group g service (PStr amount) ->
  PyFloat.of_string amount = Some x ->
  as_key service = ok k ->
  group_entry g = ok (k, PyFloat.round2 x).
Proof.
  intros (keys & ms & uc & Hk & Hs & Hm & Hu & Ha) Hx Hkey.
  unfold group_entry, ok in *.
  rewrite Hk, Hs, Hm, Hu, Ha. cbn [float]. rewrite Hx. unfold ok.
  rewrite Hkey. reflexivity.
Qed.

Lemma group_entry_inv g k v :
  group_entry g = ok (k, v) ->
  exists service amount x,
    is_group g service amount /\ float amount = ok x /\
    as_key service = ok k /\ v = PyFloat.round2 x.
Proof.
  unfold group_entry, is_group.
  destruct (getitem g "Keys") as [?|keys] eqn:Hk; [discriminate|].
  destruct (getindex keys 0) as [?|service] eqn:Hs; [discriminate|].
  destruct (getitem g "Metrics") as [?|ms] eqn:Hm; [discriminate|].
  destruct (getitem ms "UnblendedCost") as [?|uc] eqn:Hu; [discriminate|].
  destruct (getitem uc "Amount") as [?|amount] eqn:Ha; [discriminate|].
  destruct (float amount) as [?|x] eqn:Hx; [discriminate|].
  destruct (as_key service) as [?|k'] eqn:Hkey; [discriminate|].
  intros [= <- <-]. exists service, amount, x.
  split; [|auto]. exists keys, ms, uc. auto.
Qed.

Lemma try_except_400 {A} (m : M A) env log :
  try_except m (fun e => raise (HTTPException 400 (err_str e))) env log =
  match m env log with
  | (inr a, log') => (inr a, log')
  | (inl e, log') => (inl (HTTPException 400 (err_str e)), log')
  end.
Proof. reflexivity. Qed.

Lemma cost_body_inv creds env log v log' :
  cost_body creds env log = (inr v, log') ->
  exists td start response items costs,
    succeeds env log (client_calls creds) = true /\
    PyDate.of_unix_day (unix_day env) = ok td /\
    PyDate.sub_days td 30 = ok start /\
    provider env (log ++ client_calls creds)
             (GetCostAndUsage (cost_query start td)) = ok response /\
    first_groups response = ok items /\
    cost_loop items ∅ = ok costs /\
    v = RCosts costs /\
    log' = log ++ client_calls creds
               ++ [GetCostAndUsage (cost_query start td)].
Proof.
  unfold cost_body, bind.
  destruct (get_clients creds env log) as [[?|cl] l1] eqn:Hcl; [discriminate|].
  apply get_clients_inv in Hcl as [Hs ->].
  unfold today, lift, call, ret.
  destruct (PyDate.of_unix_day (unix_day env)) as [?|td] eqn:Htd;
    [discriminate|].
  destruct (PyDate.sub_days td 30) as [?|start] eqn:Hst; [discriminate|].
  destruct (provider env _ _) as [?|response] eqn:Hp; [discriminate|].
  destruct (first_groups response) as [?|items] eqn:Hf; [discriminate|].
  destruct (cost_loop items ∅) as [?|costs] eqn:Hl; [discriminate|].
  intros [= <- <-]. exists td, start, response, items, costs.
  rewrite <- app_assoc. repeat split; auto.
Qed.

Lemma cost_body_ok creds env log td start response items costs :
  succeeds env log (client_calls creds) = true ->
  PyDate.of_unix_day (unix_day env) = ok td ->
  PyDate.sub_days td 30 = ok start ->
  provider env (log ++ client_calls creds)
           (GetCostAndUsage (cost_query start td)) = ok response ->
  first_groups response = ok items ->
  cost_loop items ∅ = ok costs ->
  cost_body creds env log =
  (inr (RCosts costs),
   log ++ client_calls creds ++ [GetCostAndUsage (cost_query start td)]).
Proof.
  intros Hs Htd Hst Hp Hf Hl.
  destruct (get_clients_ok creds env log Hs) as [cl Hcl].
  unfold cost_body, bind. rewrite Hcl.
  unfold today, lift, call, ret. unfold ok in *.
  rewrite Htd, Hst, Hp, Hf, Hl. now rewrite <- app_assoc.
Qed.

Lemma get_cost_inv creds env log v log' :
  get_cost creds env log = (inr v, log') ->
  cost_body creds env log = (inr v, log').
Proof.
  unfold get_cost. rewrite try_except_400.
  destruct (cost_body creds env log) as [[?|?] ?]; [discriminate|].
  now intros [= <- <-].
Qed.

(** When the provider answers, the handler of [/cost] returns the
    mapping that the loop builds from the groups of the first bucket. *)
Lemma get_cost_of_groups env creds log response items costs :
  succeeds env log (client_calls creds) = true ->
  (unix_day env <= LAST_DAY)%N ->
  (forall q, provider env (log ++ client_calls creds) (GetCostAndUsage q)
             = ok response) ->
  first_groups response = ok items ->
  cost_loop items ∅ = ok costs ->
  fst (get_cost creds env log) = inr (RCosts costs).
Proof.
  intros Hs Hday Hp Hf Hl.
  destruct (clock_ok _ Hday) as [td Htd].
  destruct (clock_facts _ _ Htd) as (start & Hst & _).
  unfold get_cost. rewrite try_except_400.
  rewrite (cost_body_ok creds env log td start response items costs);
    auto.
Qed.

(** C2 (as amended): for the billing response whose first bucket holds
    the groups EC2 with amount "12.345" and S3 with amount "0.001", the
    handler of [/cost] returns exactly the mapping of EC2 to 12.35 and of
    S3 to 0.0; in general the amount string of a group is parsed to a
    float and rounded to the nearest hundredth, an exact tie going to the
    even hundredth. *)
Theorem get_cost_rounds_amounts :
  (forall env creds log response g1 g2,
      succeeds env log (client_calls creds) = true ->
      (unix_day env <= LAST_DAY)%N ->
      (forall q, provider env (log ++ client_calls creds) (GetCostAndUsage q)
                 = ok response) ->
      first_groups response = ok [g1; g2] ->
      is_group g1 (PStr "EC2") (PStr "12.345") ->
      is_group g2 (PStr "S3") (PStr "0.001") ->
      fst (get_cost creds env log) =
      inr (RCosts {[ KStr "EC2" := float_literal "12.35";
                     KStr "S3" := float_literal "0.0" ]}))
  /\ (forall g service amount x,
         is_group g (PStr service) (PStr amount) ->
         PyFloat.of_string amount = Some x ->
         group_entry g = ok (KStr service, PyFloat.round2 x))
  /\ (forall s m e,
         PyFloat.round2 (S754_finite s m e) =
         PyFloat.b64_of_decimal s (PyFloat.cents m e) (-2)
         /\ nearest_even_hundredth (Z.pos m) e (PyFloat.cents m e)).
Proof.
  split; [|split].
  - intros env creds log response g1 g2 Hs Hday Hp Hf H1 H2.
    apply (get_cost_of_groups env creds log response [g1; g2]); auto.
    cbn [cost_loop].
    rewrite (group_entry_of_group g1 _ _ (float_literal "12.345")
               (KStr "EC2") H1 eq_refl eq_refl).
    rewrite (group_entry_of_group g2 _ _ (float_literal "0.001")
               (KStr "S3") H2 eq_refl eq_refl).
    vm_compute. reflexivity.
  - intros g service amount x Hg Hx.
    now apply (group_entry_of_group g (PStr service) amount x).
  - intros s m e. split; [reflexivity|apply cents_nearest].
Qed.

Lemma get_cost_rounds_amounts_witness :
  fst (get_cost some_creds
         (mock_env
            {| mock_instances := ok PNone; mock_buckets := ok PNone;
               mock_billing :=
                 ok (billing [time_bucket [service_group "EC2" "12.345";
                                           service_group "S3" "0.001"]]) |}
            20000) []) =
  inr (RCosts {[ KStr "EC2" := float_literal "12.35";
                 KStr "S3" := float_literal "0.0" ]})
  /\ group_entry (service_group "Tax" "2.675") =
     ok (KStr "Tax", float_literal "2.67").
Proof.
  split.
  - eapply (proj1 get_cost_rounds_amounts).
    + reflexivity.
    + vm_compute. discriminate.
    + intros q. reflexivity.
    + reflexivity.
    + do 3 eexists. repeat split; reflexivity.
    + do 3 eexists. repeat split; reflexivity.
  - replace (float_literal "2.67")
      with (PyFloat.round2 (float_literal "2.675"))
      by (vm_compute; reflexivity).
    apply (proj1 (proj2 get_cost_rounds_amounts)
             (service_group "Tax" "2.675") "Tax" "2.675").
    + do 3 eexists. repeat split; reflexivity.
    + vm_compute. reflexivity.
Defined.

(** The amount "0.125" is a float exactly, midway between 0.12 and 0.13:
    the handler returns 0.12, and rounding half-up gives 0.13. *)
Lemma get_cost_half_up_counterexample :
  fst (get_cost some_creds
         (mock_env
            {| mock_instances := ok PNone; mock_buckets := ok PNone;
               mock_billing :=
                 ok (billing [time_bucket [service_group "Tax" "0.125"]]) |}
            20000) []) =
  inr (RCosts {[ KStr "Tax" := float_literal "0.12" ]})
  /\ PyFloat.of_string "0.125" = Some (S754_finite false 4503599627370496 (-55))
  /\ PyFloat.round2_half_up (S754_finite false 4503599627370496 (-55))
     = float_literal "0.13"
  /\ float_literal "0.12" <> float_literal "0.13".
Proof.
  split; [|split; [|split]].
  - vm_compute. reflexivity.
  - vm_compute. reflexivity.
  - vm_compute. reflexivity.
  - vm_compute. discriminate.
Qed.

(** *** The loop over the groups *)

Lemma cost_loop_app l1 l2 m0 :
  cost_loop (l1 ++ l2) m0 =
  match cost_loop l1 m0 with
  | inr m1 => cost_loop l2 m1
  | inl e => inl e
  end.
Proof.
  revert m0. induction l1 as [|g l1 IH]; intros m0.
  - reflexivity.
  - rewrite <- app_comm_cons. cbn [cost_loop].
    destruct (group_entry g) as [e|[k v]]; [reflexivity|apply IH].
Qed.

Lemma cost_loop_other k l m0 m :
  cost_loop l m0 = ok m -> Forall (other_service k) l -> m !! k = m0 !! k.
Proof.
  revert m0. induction l as [|g l IH]; intros m0 Hl HF; cbn [cost_loop] in Hl.
  - now injection Hl as <-.
  - inversion HF as [|? ? Hg HF']; subst.
    destruct (group_entry g) as [e|[k' v']] eqn:He; [discriminate|].
    rewrite (IH _ Hl HF'). apply lookup_insert_ne.
    intros ->. now apply (Hg v').
Qed.

Lemma cost_loop_last k v l1 g l3 m0 m :
  cost_loop (l1 ++ g :: l3) m0 = ok m ->
  group_entry g = ok (k, v) ->
  Forall (other_service k) l3 ->
  m !! k = Some v.
Proof.
  intros Hl Hg HF. rewrite cost_loop_app in Hl.
  destruct (cost_loop l1 m0) as [e|m1]; [discriminate|].
  cbn [cost_loop] in Hl. unfold ok in Hg. rewrite Hg in Hl.
  rewrite (cost_loop_other k l3 _ m Hl HF). apply lookup_insert_eq.
Qed.

Lemma cost_loop_entries l m0 m :
  cost_loop l m0 = ok m ->
  (forall k, is_Some (m0 !! k) -> is_Some (m !! k)) /\
  Forall (fun g => exists k v, group_entry g = ok (k, v) /\ is_Some (m !! k))
         l.
Proof.
  revert m0. induction l as [|g l IH]; intros m0 Hl; cbn [cost_loop] in Hl.
  - injection Hl as <-. split; [auto|constructor].
  - destruct (group_entry g) as [e|[k v]] eqn:He; [discriminate|].
    destruct (IH _ Hl) as [Hkeep Hall]. split.
    + intros k' Hk'. apply Hkeep.
      destruct (decide (k = k')) as [->|Hne].
      * rewrite lookup_insert_eq. eauto.
      * now rewrite lookup_insert_ne.
    + constructor; [|exact Hall].
      exists k, v. split; [exact He|].
      apply Hkeep. rewrite lookup_insert_eq. eauto.
Qed.

Lemma filter_key_absent (k : pykey) (l : list (pykey * spec_float)) :
  k ∉ l.*1 ->
  List.filter (fun kv => bool_decide (fst kv = k)) l = [].
Proof.
  induction l as [|[k' v'] l IH]; intros Hk; [reflexivity|].
  cbn [List.filter fst]. rewrite fmap_cons in Hk.
  apply not_elem_of_cons in Hk as [Hne Hk].
  rewrite bool_decide_eq_false_2
    by (intros Heq; apply Hne; now symmetry).
  now apply IH.
Qed.

Lemma filter_key_once (k : pykey) v (l : list (pykey * spec_float)) :
  NoDup l.*1 -> (k, v) ∈ l ->
  List.length (List.filter (fun kv => bool_decide (fst kv = k)) l) = 1%nat.
Proof.
  induction l as [|[k' v'] l IH]; intros Hnd Hin.
  - now apply elem_of_nil in Hin.
  - rewrite fmap_cons in Hnd. apply NoDup_cons in Hnd as [Hk' Hnd].
    cbn [List.filter fst].
    destruct (decide (k' = k)) as [->|Hne].
    + rewrite bool_decide_eq_true_2 by reflexivity.
      rewrite filter_key_absent by exact Hk'. reflexivity.
    + rewrite bool_decide_eq_false_2 by exact Hne.
      apply IH; [exact Hnd|].
      apply elem_of_cons in Hin as [Heq|Hin]; [congruence|exact Hin].
Qed.

Lemma bound_once (m : gmap pykey spec_float) k v :
  m !! k = Some v -> entries_with k m = 1%nat.
Proof.
  intros Hk. unfold entries_with.
  apply (filter_key_once k v).
  - apply NoDup_fst_map_to_list.
  - now apply elem_of_map_to_list.
Qed.

Lemma get_cost_returned env creds log response costs :
  (forall q, provider env (log ++ client_calls creds) (GetCostAndUsage q)
             = ok response) ->
  fst (get_cost creds env log) = inr (RCosts costs) ->
  exists items, first_groups response = ok items /\
                cost_loop items ∅ = ok costs.
Proof.
  intros Hp Hret.
  destruct (get_cost creds env log) as [r log'] eqn:Hrun.
  cbn [fst] in Hret. subst r. apply get_cost_inv, cost_body_inv in Hrun.
  destruct Hrun as (td & start & response' & items & costs' & _ & _ & _
                    & Hp' & Hf & Hl & [= <-] & _).
  rewrite Hp in Hp'. injection Hp' as <-. eauto.
Qed.

Lemma get_cost_outcome env creds log :
  (exists costs, fst (get_cost creds env log) = inr (RCosts costs)) \/
  (exists e log', cost_body creds env log = (inl e, log') /\
     get_cost creds env log = (inl (HTTPException 400 (err_str e)), log')).
Proof.
  unfold get_cost. rewrite try_except_400.
  destruct (cost_body creds env log) as [[e|v] log'] eqn:Hb.
  - right. eauto.
  - left. apply cost_body_inv in Hb.
    destruct Hb as (_ & _ & _ & _ & costs & _ & _ & _ & _ & _ & _ & -> & _).
    eauto.
Qed.

(** C5: when two groups of the first bucket have the same service name,
    the mapping returned by [/cost] has that name exactly once, bound to
    the rounded amount of the last group with that name; the amount of
    the earlier group is not what the name is bound to. *)
Theorem get_cost_last_duplicate_wins env creds log response
    before g1 between g2 after name amount1 amount2 x2 costs :
  (forall q, provider env (log ++ client_calls creds) (GetCostAndUsage q)
             = ok response) ->
  first_groups response = ok (before ++ g1 :: between ++ g2 :: after) ->
  is_group g1 (PStr name) amount1 ->
  is_group g2 (PStr name) (PStr amount2) ->
  PyFloat.of_string amount2 = Some x2 ->
  Forall (other_service (KStr name)) after ->
  fst (get_cost creds env log) = inr (RCosts costs) ->
  costs !! KStr name = Some (PyFloat.round2 x2) /\
  entries_with (KStr name) costs = 1%nat /\
  (forall x1, float amount1 = ok x1 ->
     PyFloat.round2 x1 <> PyFloat.round2 x2 ->
     costs !! KStr name <> Some (PyFloat.round2 x1)).
Proof.
  intros Hp Hf _ Hg2 Hx2 Hafter Hret.
  destruct (get_cost_returned env creds log response costs Hp Hret)
    as (items & Hf' & Hl).
  rewrite Hf in Hf'. injection Hf' as <-.
  rewrite app_comm_cons, app_assoc in Hl.
  assert (Hk : costs !! KStr name = Some (PyFloat.round2 x2)).
  { eapply cost_loop_last; [exact Hl| |exact Hafter].
    now apply (group_entry_of_group g2 (PStr name) amount2 x2). }
  split; [exact Hk|]. split; [now apply (bound_once _ _ _ Hk)|].
  intros x1 _ Hne. rewrite Hk. congruence.
Qed.

Lemma get_cost_last_duplicate_wins_witness :
  ({[ KStr "EC2" := float_literal "3.46"; KStr "S3" := float_literal "2.0" ]}
     : gmap pykey spec_float) !! KStr "EC2"
  = Some (PyFloat.round2 (float_literal "3.456")) /\
  entries_with (KStr "EC2")
    {[ KStr "EC2" := float_literal "3.46"; KStr "S3" := float_literal "2.0" ]}
  = 1%nat /\
  (forall x1, float (PStr "1.00") = ok x1 ->
     PyFloat.round2 x1 <> PyFloat.round2 (float_literal "3.456") ->
     ({[ KStr "EC2" := float_literal "3.46";
         KStr "S3" := float_literal "2.0" ]} : gmap pykey spec_float)
       !! KStr "EC2" <> Some (PyFloat.round2 x1)).
Proof.
  apply (get_cost_last_duplicate_wins
           (mock_env
              {| mock_instances := ok PNone; mock_buckets := ok PNone;
                 mock_billing :=
                   ok (billing [time_bucket
                                  [service_group "EC2" "1.00";
                                   service_group "S3" "2.00";
                                   service_group "EC2" "3.456"]]) |}
              20000)
           some_creds []
           (billing [time_bucket [service_group "EC2" "1.00";
                                  service_group "S3" "2.00";
                                  service_group "EC2" "3.456"]])
           [] (service_group "EC2" "1.00") [service_group "S3" "2.00"]
           (service_group "EC2" "3.456") [] "EC2" (PStr "1.00") "3.456").
  - intros q. reflexivity.
  - reflexivity.
  - do 3 eexists. repeat split; reflexivity.
  - do 3 eexists. repeat split; reflexivity.
  - vm_compute. reflexivity.
  - constructor.
  - vm_compute. reflexivity.
Defined.




(** C10: the handler of [/cost] returns all of the mapping or none of
    it: when a group of the first bucket has an amount string that is not
    a number, or when the response has no time bucket, it raises the 400
    error and returns no mapping; and a mapping that it returns has an
    entry for the service of every group of the first bucket. *)
Theorem get_cost_all_or_nothing env creds log response :
  (forall q, provider env (log ++ client_calls creds) (GetCostAndUsage q)
             = ok response) ->
  (forall items g ms uc amount,
      first_groups response = ok items -> g ∈ items ->
      getitem g "Metrics" = ok ms -> getitem ms "UnblendedCost" = ok uc ->
      getitem uc "Amount" = ok (PStr amount) ->
      PyFloat.of_string amount = None ->
      exists detail,
        fst (get_cost creds env log) = inl (HTTPException 400 detail))
  /\ (getitem response "ResultsByTime" = ok (PList []) ->
      exists detail,
        fst (get_cost creds env log) = inl (HTTPException 400 detail))
  /\ (forall costs,
        fst (get_cost creds env log) = inr (RCosts costs) ->
        exists items,
          first_groups response = ok items /\
          Forall (fun g => exists k v, group_entry g = ok (k, v) /\
                                       is_Some (costs !! k)) items).
Proof.
  intros Hp.
  assert (Hfail : ~ (exists costs,
                      fst (get_cost creds env log) = inr (RCosts costs)) ->
                  exists detail,
                    fst (get_cost creds env log)
                    = inl (HTTPException 400 detail)).
  { intros Hno. destruct (get_cost_outcome env creds log)
      as [Hyes|(e & l & _ & Hrun)]; [contradiction|].
    rewrite Hrun. eauto. }
  split; [|split].
  - intros items g ms uc amount Hf Hin Hm Hu Ha Hx. apply Hfail.
    intros [costs Hret].
    destruct (get_cost_returned env creds log response costs Hp Hret)
      as (items' & Hf' & Hl).
    rewrite Hf in Hf'. injection Hf' as <-.
    apply cost_loop_entries in Hl as [_ Hall].
    rewrite Forall_forall in Hall.
    destruct (Hall g Hin) as (k & v & He & _).
    apply group_entry_inv in He
      as (service & amount' & x & (keys & ms' & uc' & _ & _ & Hm' & Hu' & Ha')
          & Hfl & _).
    rewrite Hm in Hm'. injection Hm' as <-.
    rewrite Hu in Hu'. injection Hu' as <-.
    rewrite Ha in Ha'. injection Ha' as <-.
    cbn [float] in Hfl. rewrite Hx in Hfl. discriminate.
  - intros Hr. apply Hfail. intros [costs Hret].
    destruct (get_cost_returned env creds log response costs Hp Hret)
      as (items' & Hf' & _).
    unfold first_groups in Hf'. unfold ok in Hr. rewrite Hr in Hf'.
    discriminate.
  - intros costs Hret.
    destruct (get_cost_returned env creds log response costs Hp Hret)
      as (items & Hf & Hl).
    exists items. split; [exact Hf|].
    now apply cost_loop_entries in Hl as [_ Hall].
Qed.

Lemma get_cost_all_or_nothing_witness :
  let env :=
    mock_env
      {| mock_instances := ok PNone; mock_buckets := ok PNone;
         mock_billing :=
           ok (billing [time_bucket [service_group "EC2" "1.0";
                                     service_group "S3" "n/a"]]) |}
      20000 in
  let response :=
    billing [time_bucket [service_group "EC2" "1.0";
                          service_group "S3" "n/a"]] in
  (forall items g ms uc amount,
      first_groups response = ok items -> g ∈ items ->
      getitem g "Metrics" = ok ms -> getitem ms "UnblendedCost" = ok uc ->
      getitem uc "Amount" = ok (PStr amount) ->
      PyFloat.of_string amount = None ->
      exists detail,
        fst (get_cost some_creds env []) = inl (HTTPException 400 detail))
  /\ (getitem response "ResultsByTime" = ok (PList []) ->
      exists detail,
        fst (get_cost some_creds env []) = inl (HTTPException 400 detail))
  /\ (forall costs,
        fst (get_cost some_creds env []) = inr (RCosts costs) ->
        exists items,
          first_groups response = ok items /\
          Forall (fun g => exists k v, group_entry g = ok (k, v) /\
                                       is_Some (costs !! k)) items).
Proof.
  intros env response.
  apply (get_cost_all_or_nothing env some_creds [] response).
  intros q. reflexivity.
Defined.

(** *** Exceptions *)

Lemma get_resources_raises env creds log e log' :
  resources_body creds env log = (inl e, log') ->
  get_resources creds env log = (inl (HTTPException 400 (err_str e)), log').
Proof. unfold get_resources. rewrite try_except_400. now intros ->. Qed.

Lemma get_cost_raises env creds log e log' :
  cost_body creds env log = (inl e, log') ->
  get_cost creds env log = (inl (HTTPException 400 (err_str e)), log').
Proof. unfold get_cost. rewrite try_except_400. now intros ->. Qed.

Lemma get_clients_raises env creds log e :
  provider env log (NewSession (access_key creds) (secret_key creds)
                               (region creds)) = inl e ->
  exists log', get_clients creds env log = (inl e, log').
Proof.
  intros He. unfold get_clients, bind, call. rewrite He. eauto.
Qed.

(** C3: an exception raised in the [try] block of the handler of
    [/resources] or of [/cost], by the session construction, by a
    provider call or by reading its response, is answered with status 400
    and the text of the exception as detail; the handlers raise nothing
    but this [HTTPException]. *)
Theorem handlers_answer_400 env creds log :
  (forall e log',
      resources_body creds env log = (inl e, log') ->
      get_resources creds env log
      = (inl (HTTPException 400 (err_str e)), log') /\
      respond (fst (get_resources creds env log))
      = {| status := 400; content_type := "application/json";
           body := Detail (err_str e) |})
  /\ (forall e log',
      cost_body creds env log = (inl e, log') ->
      get_cost creds env log
      = (inl (HTTPException 400 (err_str e)), log') /\
      respond (fst (get_cost creds env log))
      = {| status := 400; content_type := "application/json";
           body := Detail (err_str e) |})
  /\ (forall e,
      provider env log (NewSession (access_key creds) (secret_key creds)
                                   (region creds)) = inl e ->
      fst (get_resources creds env log)
      = inl (HTTPException 400 (err_str e)) /\
      fst (get_cost creds env log) = inl (HTTPException 400 (err_str e)))
  /\ (forall e,
      succeeds env log (client_calls creds) = true ->
      provider env (log ++ client_calls creds) DescribeInstances = inl e ->
      fst (get_resources creds env log)
      = inl (HTTPException 400 (err_str e)))
  /\ (forall e,
      succeeds env log (client_calls creds) = true ->
      (unix_day env <= LAST_DAY)%N ->
      (forall q, provider env (log ++ client_calls creds)
                          (GetCostAndUsage q) = inl e) ->
      fst (get_cost creds env log) = inl (HTTPException 400 (err_str e)))
  /\ (forall e, fst (get_resources creds env log) <> inl (Error e))
  /\ (forall e, fst (get_cost creds env log) <> inl (Error e)).
Proof.
  split; [|split; [|split; [|split; [|split; [|split]]]]].
  - intros e log' Hb. split; [now apply get_resources_raises|].
    rewrite (get_resources_raises _ _ _ _ _ Hb). reflexivity.
  - intros e log' Hb. split; [now apply get_cost_raises|].
    rewrite (get_cost_raises _ _ _ _ _ Hb). reflexivity.
  - intros e He.
    destruct (get_clients_raises env creds log e He) as [l Hl]. split.
    + unfold get_resources. rewrite try_except_400.
      unfold resources_body, bind. rewrite Hl. reflexivity.
    + unfold get_cost. rewrite try_except_400.
      unfold cost_body, bind. rewrite Hl. reflexivity.
  - intros e Hs He.
    destruct (get_clients_ok creds env log Hs) as [cl Hcl].
    unfold get_resources. rewrite try_except_400.
    unfold resources_body, bind. rewrite Hcl. unfold call.
    rewrite He. reflexivity.
  - intros e Hs Hday He.
    destruct (get_clients_ok creds env log Hs) as [cl Hcl].
    destruct (clock_ok _ Hday) as [td Htd].
    destruct (clock_facts _ _ Htd) as (start & Hst & _).
    unfold get_cost. rewrite try_except_400.
    unfold cost_body, bind. rewrite Hcl. unfold today, lift, call.
    unfold ok in *. rewrite Htd, Hst, He. reflexivity.
  - intros e He. unfold get_resources in He. rewrite try_except_400 in He.
    destruct (resources_body creds env log) as [[?|?] ?]; discriminate.
  - intros e He. unfold get_cost in He. rewrite try_except_400 in He.
    destruct (cost_body creds env log) as [[?|?] ?]; discriminate.
Qed.

Lemma handlers_answer_400_witness :
  fst (get_resources some_creds (mock_env denied 20000) [])
  = inl (HTTPException 400 (err_str auth_failure)) /\
  fst (get_cost some_creds (mock_env denied 20000) [])
  = inl (HTTPException 400 (err_str auth_failure)).
Proof.
  pose proof (handlers_answer_400 (mock_env denied 20000) some_creds [])
    as (_ & _ & _ & Hres & Hcost & _).
  split.
  - apply Hres; reflexivity.
  - apply Hcost; [reflexivity|vm_compute; discriminate|].
    intros q. reflexivity.
Defined.

(** *** Validation, [/health] and [/metrics] *)

Lemma app_routed env req w r :
  route (method req) (path req) = Some r ->
  app env req w =
  (fst (endpoint env r req (enter req w)),
   leave req (snd (endpoint env r req (enter req w)))).
Proof.
  intros Hr. unfold app, metrics_middleware, dispatch. rewrite Hr.
  now destruct (endpoint env r req (enter req w)).
Qed.

(** C4: a payload without the [access_key] field or without the
    [secret_key] field, posted to [/resources] or to [/cost], is answered
    with the validation error 422, and no provider call is made. *)
Theorem missing_credentials_rejected env req w d :
  method req = "POST" ->
  path req = "/resources" \/ path req = "/cost" ->
  payload req = PDict d ->
  d !! "access_key" = None \/ d !! "secret_key" = None ->
  fst (app env req w) = unprocessable /\
  400 <= status (fst (app env req w)) < 500 /\
  calls (snd (app env req w)) = calls w.
Proof.
  intros Hm Hp Hd Hmiss.
  assert (Hv : validate env (payload req) = None).
  { rewrite Hd. unfold validate.
    destruct Hmiss as [-> | ->]; [reflexivity|].
    now destruct (d !! "access_key"). }
  assert (He : exists r, route (method req) (path req) = Some r /\
                         endpoint env r req (enter req w)
                         = (unprocessable, enter req w)).
  { rewrite Hm. destruct Hp as [-> | ->].
    - exists Resources. split; [reflexivity|].
      cbn [endpoint]. unfold with_creds. now rewrite Hv.
    - exists Cost. split; [reflexivity|].
      cbn [endpoint]. unfold with_creds. now rewrite Hv. }
  destruct He as (r & Hr & He).
  rewrite (app_routed env req w r Hr), He. cbn [fst snd].
  repeat split; cbn; lia.
Qed.

Lemma missing_credentials_rejected_witness :
  fst (app (mock_env quiet 20000)
           {| method := "POST"; path := "/cost";
              payload := PDict {[ "access_key" := PStr "AKIAEXAMPLE";
                                  "region" := PStr "eu-west-1" ]} |}
           empty_world) = unprocessable /\
  400 <= status
           (fst (app (mock_env quiet 20000)
                   {| method := "POST"; path := "/cost";
                      payload := PDict {[ "access_key" := PStr "AKIAEXAMPLE";
                                          "region" := PStr "eu-west-1" ]} |}
                   empty_world)) < 500 /\
  calls (snd (app (mock_env quiet 20000)
                {| method := "POST"; path := "/cost";
                   payload := PDict {[ "access_key" := PStr "AKIAEXAMPLE";
                                       "region" := PStr "eu-west-1" ]} |}
                empty_world)) = calls empty_world.
Proof.
  apply (missing_credentials_rejected _ _ _
           {[ "access_key" := PStr "AKIAEXAMPLE";
              "region" := PStr "eu-west-1" ]}).
  - reflexivity.
  - right. reflexivity.
  - reflexivity.
  - right. reflexivity.
Defined.

(** C8: a GET request to [/health] is answered with status 200 and the
    body [{"status": "ok"}], whatever the provider, the payload and the
    state are, and no provider call is made. *)
Theorem health_always_ok env req w :
  method req = "GET" ->
  path req = "/health" ->
  fst (app env req w) =
  {| status := 200; content_type := "application/json";
     body := JSON (RStatus {[ "status" := "ok" ]}) |} /\
  calls (snd (app env req w)) = calls w.
Proof.
  intros Hm Hp.
  rewrite (app_routed env req w Health) by (now rewrite Hm, Hp).
  split; reflexivity.
Qed.

Lemma health_always_ok_witness :
  fst (app (mock_env denied 20000)
           {| method := "GET"; path := "/health"; payload := PNone |}
           empty_world) =
  {| status := 200; content_type := "application/json";
     body := JSON (RStatus {[ "status" := "ok" ]}) |} /\
  calls (snd (app (mock_env denied 20000)
                {| method := "GET"; path := "/health"; payload := PNone |}
                empty_world)) = calls empty_world.
Proof. apply health_always_ok; reflexivity. Defined.

(** C7 (what the code does): the handler of [/metrics] returns a tuple of
    the exposition text, 200 and a header dictionary; the framework
    encodes the tuple as a JSON body, and the content type of the
    response is that of JSON, not the exposition content type. *)
Theorem metrics_answered_as_json env w p :
  let req := {| method := "GET"; path := "/metrics"; payload := p |} in
  fst (app env req w) =
  {| status := 200; content_type := "application/json";
     body := JSON (RTuple (generate_latest env (registry (enter req w))) 200
                          {[ "Content-Type" := CONTENT_TYPE_LATEST ]}) |} /\
  content_type (fst (app env req w)) <> CONTENT_TYPE_LATEST.
Proof.
  intros req.
  rewrite (app_routed env req w Metrics_) by reflexivity.
  split; [reflexivity|]. cbn. discriminate.
Qed.

(** *** The request counter under concurrent requests *)

Lemma count_enter req w p : count (enter req w) p = count w p + hit p req.
Proof.
  unfold count, enter, bump, hit. cbn [registry REQUEST_COUNT].
  destruct (String.eqb_spec (path req) p) as [->|Hne].
  - rewrite lookup_insert_eq. reflexivity.
  - rewrite lookup_insert_ne by exact Hne. cbn. lia.
Qed.

Lemma count_leave req w p : count (leave req w) p = count w p.
Proof. reflexivity. Qed.

Lemma endpoint_registry env r req w :
  registry (snd (endpoint env r req w)) = registry w.
Proof.
  destruct r; cbn [endpoint]; try reflexivity;
    unfold with_creds; destruct (validate env (payload req));
    try reflexivity.
  - now destruct (get_resources a env (calls w)).
  - now destruct (get_cost a env (calls w)).
Qed.









(** Every pool of requests has a schedule that serves them all. *)








(** ** Further properties of the handlers *)

(** *** The calls a handler makes *)

Lemma get_clients_cases creds env log :
  (exists cl,
      get_clients creds env log = (inr cl, log ++ client_calls creds)) \/
  (exists e l,
      get_clients creds env log = (inl e, log ++ l) /\
      l `prefix_of` client_calls creds /\ l <> []).
Proof.
  unfold get_clients, client_calls, bind, call, ret.
  destruct (provider env log _) as [e|v1] eqn:H1.
  { right. exists e, [NewSession (access_key creds) (secret_key creds)
                                 (region creds)].
    repeat split; [eexists; reflexivity|discriminate]. }
  destruct (provider env (log ++ [_]) (NewClient "ec2")) as [e|v2] eqn:H2.
  { right. exists e, [NewSession (access_key creds) (secret_key creds)
                                 (region creds); NewClient "ec2"].
    rewrite <- app_assoc.
    repeat split; [eexists; reflexivity|discriminate]. }
  destruct (provider env ((log ++ [_]) ++ [_]) (NewClient "s3"))
    as [e|v3] eqn:H3.
  { right. exists e, [NewSession (access_key creds) (secret_key creds)
                                 (region creds); NewClient "ec2";
                      NewClient "s3"].
    rewrite <- !app_assoc.
    repeat split; [eexists; reflexivity|discriminate]. }
  destruct (provider env (((log ++ [_]) ++ [_]) ++ [_]) (NewClient "ce"))
    as [e|v4] eqn:H4.
  { right. exists e, (client_calls creds). unfold client_calls.
    rewrite <- !app_assoc.
    repeat split; [eexists; symmetry; apply app_nil_r|discriminate]. }
  left. eexists. rewrite <- !app_assoc. reflexivity.
Qed.

Lemma resources_body_counted env creds log cl :
  get_clients creds env log = (inr cl, log ++ client_calls creds) ->
  resources_body creds env log =
  match provider env (log ++ client_calls creds) DescribeInstances with
  | inl e => (inl e, log ++ client_calls creds ++ [DescribeInstances])
  | inr instances =>
      match count_instances instances with
      | inl e => (inl e, log ++ client_calls creds ++ [DescribeInstances])
      | inr n =>
          match provider env
                  (log ++ client_calls creds ++ [DescribeInstances])
                  ListBuckets with
          | inl e => (inl e, log ++ resources_calls creds)
          | inr buckets =>
              match getitem buckets "Buckets" with
              | inl e => (inl e, log ++ resources_calls creds)
              | inr bucket_list =>
                  match len bucket_list with
                  | inl e => (inl e, log ++ resources_calls creds)
                  | inr m =>
                      (inr (RCounts {[ "ec2_instances" := n;
                                       "s3_buckets" := m ]}),
                       log ++ resources_calls creds)
                  end
              end
          end
      end
  end.
Proof.
  intros Hcl. unfold resources_body, bind. rewrite Hcl.
  unfold call, lift, ret, count_instances, resources_calls.
  rewrite <- !app_assoc.
  destruct (provider env _ DescribeInstances) as [e|instances];
    [reflexivity|].
  destruct (getitem instances "Reservations") as [e|reservations];
    [reflexivity|].
  destruct (iter reservations) as [e|items]; [reflexivity|].
  destruct (sum_instances items 0) as [e|n]; [reflexivity|].
  cbn [app].
  destruct (provider env _ ListBuckets) as [e|buckets]; [reflexivity|].
  destruct (getitem buckets "Buckets") as [e|bucket_list]; [reflexivity|].
  destruct (len bucket_list) as [e|m]; reflexivity.
Qed.




(** X3: each request builds all three clients, also the ones its handler
    does not use. When the billing client cannot be built, a request to
    [/resources] is answered 400 and no instance is listed; when the
    compute client cannot be built, a request to [/cost] is answered 400
    and no cost query is sent. *)
Theorem unused_client_failure env creds log e :
  (succeeds env log [NewSession (access_key creds) (secret_key creds)
                                (region creds);
                     NewClient "ec2"; NewClient "s3"] = true ->
   provider env (log ++ [NewSession (access_key creds) (secret_key creds)
                                    (region creds);
                         NewClient "ec2"; NewClient "s3"])
            (NewClient "ce") = inl e ->
   get_resources creds env log =
   (inl (HTTPException 400 (err_str e)), log ++ client_calls creds))
  /\
  (succeeds env log [NewSession (access_key creds) (secret_key creds)
                                (region creds)] = true ->
   provider env (log ++ [NewSession (access_key creds) (secret_key creds)
                                    (region creds)])
            (NewClient "ec2") = inl e ->
   get_cost creds env log =
   (inl (HTTPException 400 (err_str e)),
    log ++ [NewSession (access_key creds) (secret_key creds) (region creds);
            NewClient "ec2"])).
Proof.
  split.
  - cbn [succeeds]. intros Hs He.
    unfold get_resources. rewrite try_except_400.
    unfold resources_body, get_clients, bind, call.
    destruct (provider env log _) as [?|v1]; [discriminate|].
    destruct (provider env (log ++ [_]) (NewClient "ec2")) as [?|v2];
      [discriminate|].
    destruct (provider env ((log ++ [_]) ++ [_]) (NewClient "s3"))
      as [?|v3]; [discriminate|].
    rewrite <- !app_assoc. simpl. simpl in He. rewrite He.
    reflexivity.
  - cbn [succeeds]. intros Hs He.
    unfold get_cost. rewrite try_except_400.
    unfold cost_body, get_clients, bind, call.
    destruct (provider env log _) as [?|v1]; [discriminate|].
    rewrite He. rewrite <- !app_assoc. reflexivity.
Qed.

Lemma unused_client_failure_witness :
  let env (broken : string) :=
    {| provider := fun _ c =>
         match c with
         | NewClient service =>
             if (service =? broken)%string then inl auth_failure
             else ok PNone
         | _ => ok PNone
         end;
       unix_day := 20000;
       generate_latest := fun _ => "";
       str_field := fun _ => None;
       no_route := fun _ => not_found |} in
  get_resources some_creds (env "ce") [] =
  (inl (HTTPException 400 (err_str auth_failure)),
   [] ++ client_calls some_creds)
  /\
  get_cost some_creds (env "ec2") [] =
  (inl (HTTPException 400 (err_str auth_failure)),
   [] ++ [NewSession (access_key some_creds) (secret_key some_creds)
                     (region some_creds); NewClient "ec2"]).
Proof.
  intros env. split.
  - apply (proj1 (unused_client_failure (env "ce") some_creds []
                    auth_failure)); reflexivity.
  - apply (proj2 (unused_client_failure (env "ec2") some_creds []
                    auth_failure)); reflexivity.
Defined.

(** X4: when the instance listing cannot be counted (a missing
    ["Reservations"] key, a reservation without ["Instances"], a value
    without a length), the answer is the 400 error with the text of that
    exception, and the buckets are never listed; when the bucket listing
    raises after the instances were counted, the answer is the 400 error
    and the count is not returned. *)
Theorem instance_failure_skips_buckets env creds log instances :
  succeeds env log (client_calls creds) = true ->
  provider env (log ++ client_calls creds) DescribeInstances = ok instances ->
  (forall e,
      count_instances instances = inl e ->
      get_resources creds env log =
      (inl (HTTPException 400 (err_str e)),
       log ++ client_calls creds ++ [DescribeInstances]))
  /\ (forall d,
      instances = PDict d -> d !! "Reservations" = None ->
      get_resources creds env log =
      (inl (HTTPException 400 "'Reservations'"),
       log ++ client_calls creds ++ [DescribeInstances]))
  /\ (forall n e,
      count_instances instances = ok n ->
      provider env (log ++ client_calls creds ++ [DescribeInstances])
               ListBuckets = inl e ->
      get_resources creds env log =
      (inl (HTTPException 400 (err_str e)), log ++ resources_calls creds)).
Proof.
  intros Hs Hd. destruct (get_clients_ok creds env log Hs) as [cl Hcl].
  assert (Hrun := resources_body_counted env creds log cl Hcl).
  unfold ok in Hd. rewrite Hd in Hrun.
  unfold get_resources. rewrite try_except_400, Hrun.
  split; [|split].
  - intros e He. now rewrite He.
  - intros d -> Hnone. unfold count_instances, getitem. now rewrite Hnone.
  - intros n e Hn He. unfold ok in Hn. now rewrite Hn, He.
Qed.

Lemma instance_failure_skips_buckets_witness :
  get_resources some_creds
    (mock_env {| mock_instances := ok (PDict {[ "NextToken" := PStr "t" ]});
                 mock_buckets := ok (PDict {[ "Buckets" := PList [] ]});
                 mock_billing := ok PNone |} 20000) [] =
  (inl (HTTPException 400 "'Reservations'"),
   [] ++ client_calls some_creds ++ [DescribeInstances])
  /\
  get_resources some_creds
    (mock_env {| mock_instances :=
                   ok (PDict {[ "Reservations" := PList [reservation []] ]});
                 mock_buckets := inl auth_failure;
                 mock_billing := ok PNone |} 20000) [] =
  (inl (HTTPException 400 (err_str auth_failure)),
   [] ++ resources_calls some_creds).
Proof.
  split.
  - apply (proj1 (proj2
      (instance_failure_skips_buckets
         (mock_env
            {| mock_instances := ok (PDict {[ "NextToken" := PStr "t" ]});
               mock_buckets := ok (PDict {[ "Buckets" := PList [] ]});
               mock_billing := ok PNone |} 20000)
         some_creds [] (PDict {[ "NextToken" := PStr "t" ]})
         eq_refl eq_refl)) {[ "NextToken" := PStr "t" ]}); reflexivity.
  - apply (proj2 (proj2
      (instance_failure_skips_buckets
         (mock_env
            {| mock_instances :=
                 ok (PDict {[ "Reservations" := PList [reservation []] ]});
               mock_buckets := inl auth_failure;
               mock_billing := ok PNone |} 20000)
         some_creds []
         (PDict {[ "Reservations" := PList [reservation []] ]})
         eq_refl eq_refl)) 0 auth_failure); reflexivity.
Defined.

(** *** The mapping of [/cost] *)

Lemma cost_loop_keys l m0 m :
  cost_loop l m0 = ok m ->
  forall k,
    is_Some (m !! k) <->
    is_Some (m0 !! k) \/ exists g v, g ∈ l /\ group_entry g = ok (k, v).
Proof.
  revert m0. induction l as [|g l IH]; intros m0 Hl k; cbn [cost_loop] in Hl.
  - injection Hl as <-. split; [auto|].
    intros [Hk|(g & v & Hg & _)]; [exact Hk|]. now apply elem_of_nil in Hg.
  - destruct (group_entry g) as [e|[k0 v0]] eqn:He; [discriminate|].
    rewrite (IH _ Hl k), lookup_insert_is_Some'. split.
    + intros [[<-|Hk]|(g' & v & Hg' & He')].
      * right. exists g, v0. split; [apply list_elem_of_here|exact He].
      * now left.
      * right. exists g', v. split; [now apply list_elem_of_further|exact He'].
    + intros [Hk|(g' & v & Hg' & He')]; [left; now right|].
      apply elem_of_cons in Hg' as [->|Hg'].
      * left. left. unfold ok in He'. congruence.
      * right. eauto.
Qed.

Lemma cost_loop_size l m0 m :
  cost_loop l m0 = ok m -> (size m <= size m0 + List.length l)%nat.
Proof.
  revert m0. induction l as [|g l IH]; intros m0 Hl; cbn [cost_loop] in Hl.
  - injection Hl as <-. cbn. lia.
  - destruct (group_entry g) as [e|[k0 v0]]; [discriminate|].
    apply IH in Hl. rewrite map_size_insert in Hl. cbn [List.length].
    destruct (m0 !! k0); cbn in Hl; lia.
Qed.

(** X5: the keys of the mapping that [/cost] returns are exactly the
    services of the groups of the first bucket: no other key appears; the
    mapping has at most as many entries as there are groups, and it is
    empty when the bucket has no group. *)
Theorem get_cost_keys env creds log response costs :
  (forall q, provider env (log ++ client_calls creds) (GetCostAndUsage q)
             = ok response) ->
  fst (get_cost creds env log) = inr (RCosts costs) ->
  exists items,
    first_groups response = ok items /\
    (forall k, is_Some (costs !! k) <->
               exists g v, g ∈ items /\ group_entry g = ok (k, v)) /\
    (size costs <= List.length items)%nat /\
    (items = [] -> costs = ∅).
Proof.
  intros Hp Hret.
  destruct (get_cost_returned env creds log response costs Hp Hret)
    as (items & Hf & Hl).
  exists items. split; [exact Hf|]. split; [|split].
  - intros k. rewrite (cost_loop_keys _ _ _ Hl k). split.
    + intros [Hk|Hg]; [|exact Hg].
      rewrite lookup_empty in Hk. now destruct Hk.
    + intros Hg. now right.
  - apply cost_loop_size in Hl. rewrite map_size_empty in Hl. exact Hl.
  - intros ->. cbn [cost_loop] in Hl. now injection Hl as <-.
Qed.

Lemma get_cost_keys_witness :
  exists items,
    first_groups (billing [time_bucket [service_group "EC2" "1.00";
                                        service_group "S3" "2.00";
                                        service_group "EC2" "3.456"]])
    = ok items /\
    (forall k,
        is_Some (({[ KStr "EC2" := float_literal "3.46";
                     KStr "S3" := float_literal "2.0" ]}
                  : gmap pykey spec_float) !! k) <->
        exists g v, g ∈ items /\ group_entry g = ok (k, v)) /\
    (size ({[ KStr "EC2" := float_literal "3.46";
              KStr "S3" := float_literal "2.0" ]}
           : gmap pykey spec_float) <= List.length items)%nat /\
    (items = [] ->
     ({[ KStr "EC2" := float_literal "3.46";
         KStr "S3" := float_literal "2.0" ]} : gmap pykey spec_float) = ∅).
Proof.
  apply (get_cost_keys
           (mock_env
              {| mock_instances := ok PNone; mock_buckets := ok PNone;
                 mock_billing :=
                   ok (billing [time_bucket
                                  [service_group "EC2" "1.00";
                                   service_group "S3" "2.00";
                                   service_group "EC2" "3.456"]]) |}
              20000)
           some_creds []).
  - intros q. reflexivity.
  - vm_compute. reflexivity.
Defined.

Lemma round2_non_finite x : is_finite x = false -> PyFloat.round2 x = x.
Proof. destruct x; try discriminate; reflexivity. Qed.

Lemma json_compliant_non_finite (costs : gmap pykey spec_float) k x :
  costs !! k = Some x -> is_finite x = false ->
  json_compliant (RCosts costs) = false.
Proof.
  intros Hk Hx. cbn [json_compliant].
  destruct (forallb _ _) eqn:Hall; [|reflexivity].
  rewrite forallb_forall in Hall.
  apply elem_of_map_to_list, list_elem_of_In in Hk.
  specialize (Hall _ Hk). cbn [snd] in Hall. congruence.
Qed.

(** X6: an amount string that [float] reads as an infinity or as NaN
    ("nan", "inf", "1e999") is not an error for the handler of [/cost]:
    it returns the value in the mapping, the JSON encoding of the response
    then fails, and the request is answered with status 500. *)
Theorem non_finite_amount_server_error env req w creds response
    before g after name amount x costs :
  validate env (payload req) = Some creds ->
  (forall q, provider env (calls w ++ client_calls creds) (GetCostAndUsage q)
             = ok response) ->
  first_groups response = ok (before ++ g :: after) ->
  is_group g (PStr name) (PStr amount) ->
  PyFloat.of_string amount = Some x ->
  is_finite x = false ->
  Forall (other_service (KStr name)) after ->
  fst (get_cost creds env (calls w)) = inr (RCosts costs) ->
  costs !! KStr name = Some x /\
  fst (endpoint env Cost req w) = server_error /\
  status (fst (endpoint env Cost req w)) = 500.
Proof.
  intros Hv Hp Hf Hg Hx Hnf Hafter Hret.
  destruct (get_cost_returned env creds (calls w) response costs Hp Hret)
    as (items & Hf' & Hl).
  rewrite Hf in Hf'. injection Hf' as <-.
  assert (Hk : costs !! KStr name = Some x).
  { replace (Some x) with (Some (PyFloat.round2 x))
      by (now rewrite round2_non_finite).
    eapply cost_loop_last; [exact Hl| |exact Hafter].
    now apply (group_entry_of_group g (PStr name) amount x). }
  assert (He : fst (endpoint env Cost req w) = server_error).
  { cbn [endpoint]. unfold with_creds. rewrite Hv.
    destruct (get_cost creds env (calls w)) as [r log'].
    cbn [fst] in Hret |- *. subst r. cbn [respond].
    now rewrite (json_compliant_non_finite costs _ x Hk Hnf). }
  split; [exact Hk|]. split; [exact He|]. now rewrite He.
Qed.

Lemma non_finite_amount_server_error_witness :
  let response :=
    billing [time_bucket [service_group "EC2" "1.0";
                          service_group "Tax" " NaN "]] in
  let env :=
    mock_env {| mock_instances := ok PNone; mock_buckets := ok PNone;
                mock_billing := ok response |} 20000 in
  let req :=
    {| method := "POST"; path := "/cost"; payload := payload post_resources |}
  in
  ({[ KStr "EC2" := float_literal "1.0"; KStr "Tax" := S754_nan ]}
     : gmap pykey spec_float) !! KStr "Tax" = Some S754_nan /\
  fst (endpoint env Cost req empty_world) = server_error /\
  status (fst (endpoint env Cost req empty_world)) = 500.
Proof.
  intros response env req.
  apply (non_finite_amount_server_error env req empty_world some_creds
           response [service_group "EC2" "1.0"]
           (service_group "Tax" " NaN ") [] "Tax" " NaN " S754_nan).
  - reflexivity.
  - intros q. reflexivity.
  - reflexivity.
  - do 3 eexists. repeat split; reflexivity.
  - vm_compute. reflexivity.
  - reflexivity.
  - constructor.
  - vm_compute. reflexivity.
Defined.

(** *** The middleware *)

Lemma observations_enter req w p :
  observations (enter req w) p = observations w p.
Proof. reflexivity. Qed.

Lemma observations_leave req w p :
  observations (leave req w) p = observations w p + hit p req.
Proof.
  unfold observations, leave, bump, hit. cbn [registry REQUEST_LATENCY].
  destruct (String.eqb_spec (path req) p) as [->|Hne].
  - rewrite lookup_insert_eq. reflexivity.
  - rewrite lookup_insert_ne by exact Hne. cbn. lia.
Qed.

Lemma dispatch_registry env req w :
  registry (snd (dispatch env req w)) = registry w.
Proof.
  unfold dispatch. destruct (route (method req) (path req)); [|reflexivity].
  apply endpoint_registry.
Qed.

(** X7: every request is counted once: whatever its method, its route,
    its payload and the outcome of its handler, the application adds one
    to the request counter and one latency observation of its path, leaves
    the other paths as they are, and returns the response of the
    handler unchanged. *)
Theorem app_counts_every_request env req w p :
  count (snd (app env req w)) p = count w p + hit p req /\
  observations (snd (app env req w)) p = observations w p + hit p req /\
  fst (app env req w) = fst (dispatch env req (enter req w)) /\
  calls (snd (app env req w)) = calls (snd (dispatch env req (enter req w))).
Proof.
  unfold app, metrics_middleware.
  pose proof (dispatch_registry env req (enter req w)) as Hreg.
  destruct (dispatch env req (enter req w)) as [response w1].
  cbn [fst snd] in *. repeat split.
  - rewrite count_leave. unfold count. rewrite Hreg.
    apply (count_enter req w p).
  - rewrite observations_leave. unfold observations. rewrite Hreg.
    reflexivity.
Qed.








(** X9: a scrape of [/metrics] makes no provider call, and the registry
    it renders already counts the scrape itself while its latency is not
    yet observed. *)
Theorem metrics_scrape_counts_itself env req w :
  method req = "GET" ->
  path req = "/metrics" ->
  exists reg,
    body (fst (app env req w)) =
    JSON (RTuple (generate_latest env reg) 200
                 {[ "Content-Type" := CONTENT_TYPE_LATEST ]}) /\
    default 0 (REQUEST_COUNT reg !! "/metrics") = count w "/metrics" + 1 /\
    (forall p, p <> "/metrics" ->
               REQUEST_COUNT reg !! p = REQUEST_COUNT (registry w) !! p) /\
    REQUEST_LATENCY reg = REQUEST_LATENCY (registry w) /\
    calls (snd (app env req w)) = calls w.
Proof.
  intros Hm Hp.
  rewrite (app_routed env req w Metrics_) by (now rewrite Hm, Hp).
  exists (registry (enter req w)). cbn [endpoint fst snd].
  split; [reflexivity|]. split; [|split; [|split; reflexivity]].
  - pose proof (count_enter req w "/metrics") as Hc.
    unfold count, hit in Hc. rewrite Hp in Hc. exact Hc.
  - intros p Hne. cbn [enter registry REQUEST_COUNT]. unfold bump.
    rewrite Hp. now apply lookup_insert_ne.
Qed.

Lemma metrics_scrape_counts_itself_witness :
  exists reg,
    body (fst (app (mock_env denied 20000)
                   {| method := "GET"; path := "/metrics";
                      payload := PNone |} empty_world)) =
    JSON (RTuple (generate_latest (mock_env denied 20000) reg) 200
                 {[ "Content-Type" := CONTENT_TYPE_LATEST ]}) /\
    default 0 (REQUEST_COUNT reg !! "/metrics")
    = count empty_world "/metrics" + 1 /\
    (forall p, p <> "/metrics" ->
               REQUEST_COUNT reg !! p
               = REQUEST_COUNT (registry empty_world) !! p) /\
    REQUEST_LATENCY reg = REQUEST_LATENCY (registry empty_world) /\
    calls (snd (app (mock_env denied 20000)
                    {| method := "GET"; path := "/metrics";
                       payload := PNone |} empty_world))
    = calls empty_world.
Proof. apply metrics_scrape_counts_itself; reflexivity. Defined.

(** *** Credentials *)

Lemma prefix_head creds l :
  l `prefix_of` client_calls creds -> l <> [] ->
  exists rest,
    l = NewSession (access_key creds) (secret_key creds) (region creds)
        :: rest.
Proof.
  intros [k Hk] Hne. destruct l as [|c l]; [contradiction|].
  unfold client_calls in Hk. injection Hk as <- _. eauto.
Qed.

Lemma handlers_start_with_session env creds log :
  (exists rest,
      snd (get_resources creds env log) =
      log ++ NewSession (access_key creds) (secret_key creds) (region creds)
             :: rest) /\
  (exists rest,
      snd (get_cost creds env log) =
      log ++ NewSession (access_key creds) (secret_key creds) (region creds)
             :: rest).
Proof.
  unfold get_resources, get_cost. rewrite !try_except_400.
  destruct (get_clients_cases creds env log)
    as [[cl Hcl]|(e & l & Hl & Hpre & Hne)].
  - split.
    + rewrite (resources_body_counted env creds log cl Hcl).
      unfold resources_calls, client_calls.
      destruct (provider env _ DescribeInstances) as [e|instances];
        [eexists; reflexivity|].
      destruct (count_instances instances) as [e|n];
        [eexists; reflexivity|].
      destruct (provider env _ ListBuckets) as [e|buckets];
        [eexists; reflexivity|].
      destruct (getitem buckets "Buckets") as [e|bl];
        [eexists; reflexivity|].
      destruct (len bl) as [e|m]; eexists; reflexivity.
    + unfold cost_body, bind. rewrite Hcl.
      unfold today, lift, call, ret, client_calls.
      destruct (PyDate.of_unix_day (unix_day env)) as [e|td];
        [eexists; reflexivity|].
      destruct (PyDate.sub_days td 30) as [e|start];
        [eexists; reflexivity|].
      destruct (provider env _ _) as [e|response];
        [eexists; rewrite <- app_assoc; reflexivity|].
      destruct (first_groups response) as [e|items];
        [eexists; rewrite <- app_assoc; reflexivity|].
      destruct (cost_loop items ∅);
        eexists; rewrite <- app_assoc; reflexivity.
  - destruct (prefix_head creds l Hpre Hne) as [rest ->].
    unfold resources_body, cost_body, bind. rewrite Hl.
    split; eexists; reflexivity.
Qed.

Lemma app_with_creds env req w creds :
  method req = "POST" ->
  path req = "/resources" \/ path req = "/cost" ->
  validate env (payload req) = Some creds ->
  exists rest,
    calls (snd (app env req w)) =
    calls w ++ NewSession (access_key creds) (secret_key creds)
                          (region creds) :: rest.
Proof.
  intros Hm Hp Hv.
  destruct (handlers_start_with_session env creds (calls w))
    as [[r1 H1] [r2 H2]].
  destruct Hp as [Hp|Hp].
  - rewrite (app_routed env req w Resources) by (now rewrite Hm, Hp).
    cbn [endpoint]. unfold with_creds. rewrite Hv. cbn [enter calls].
    destruct (get_resources creds env (calls w)) as [r log'].
    cbn [snd leave calls] in *. eauto.
  - rewrite (app_routed env req w Cost) by (now rewrite Hm, Hp).
    cbn [endpoint]. unfold with_creds. rewrite Hv. cbn [enter calls].
    destruct (get_cost creds env (calls w)) as [r log'].
    cbn [snd leave calls] in *. eauto.
Qed.

(** X10: the credentials of the payload reach the SDK as they are: the
    first call of a request to [/resources] or [/cost] builds the session
    with the access key, the secret key and the region of the payload, the
    region being us-east-1 when the payload has none; other fields of the
    payload are ignored. *)
Theorem credentials_reach_the_sdk env req w d a s r :
  method req = "POST" ->
  path req = "/resources" \/ path req = "/cost" ->
  payload req = PDict d ->
  d !! "access_key" = Some (PStr a) ->
  d !! "secret_key" = Some (PStr s) ->
  region_is d r ->
  (forall x, str_field env (PStr x) = Some x) ->
  validate env (payload req)
  = Some {| access_key := a; secret_key := s; region := r |} /\
  exists rest, calls (snd (app env req w)) = calls w ++ NewSession a s r :: rest.
Proof.
  intros Hm Hp Hd Ha Hs Hr Hstr.
  assert (Hv : validate env (payload req)
               = Some {| access_key := a; secret_key := s; region := r |}).
  { rewrite Hd. unfold validate. rewrite Ha, Hs, !Hstr.
    destruct Hr as [[-> ->]| ->]; [reflexivity|]. now rewrite Hstr. }
  split; [exact Hv|].
  exact (app_with_creds env req w _ Hm Hp Hv).
Qed.

Lemma credentials_reach_the_sdk_witness :
  let req :=
    {| method := "POST"; path := "/cost";
       payload := PDict {[ "access_key" := PStr "AKIAEXAMPLE";
                           "secret_key" := PStr "secret";
                           "profile" := PStr "ignored" ]} |} in
  validate (mock_env quiet 20000) (payload req)
  = Some {| access_key := "AKIAEXAMPLE"; secret_key := "secret";
            region := "us-east-1" |} /\
  exists rest,
    calls (snd (app (mock_env quiet 20000) req empty_world)) =
    calls empty_world ++ NewSession "AKIAEXAMPLE" "secret" "us-east-1" :: rest.
Proof.
  intros req.
  apply (credentials_reach_the_sdk (mock_env quiet 20000) req empty_world
           {[ "access_key" := PStr "AKIAEXAMPLE";
              "secret_key" := PStr "secret";
              "profile" := PStr "ignored" ]}).
  - reflexivity.
  - right. reflexivity.
  - reflexivity.
  - reflexivity.
  - reflexivity.
  - left. split; reflexivity.
  - intros x. reflexivity.
Defined.

(** X11: a request to [/resources] or [/cost] reaches the provider
    exactly when its payload passes the validation of the credential
    model: a payload that is rejected (not an object, a field missing or
    not a string) is answered 422 with no call, and a payload that is
    accepted always leads to at least the session call. *)
Theorem provider_contacted_iff_valid env req w :
  method req = "POST" ->
  path req = "/resources" \/ path req = "/cost" ->
  (calls (snd (app env req w)) = calls w <->
   validate env (payload req) = None) /\
  (validate env (payload req) = None ->
   fst (app env req w) = unprocessable) /\
  ((forall d, payload req <> PDict d) -> validate env (payload req) = None).
Proof.
  intros Hm Hp.
  assert (Hnone : validate env (payload req) = None ->
                  app env req w = (unprocessable, leave req (enter req w))).
  { intros Hv. destruct Hp as [Hp|Hp].
    - rewrite (app_routed env req w Resources) by (now rewrite Hm, Hp).
      cbn [endpoint]. unfold with_creds. now rewrite Hv.
    - rewrite (app_routed env req w Cost) by (now rewrite Hm, Hp).
      cbn [endpoint]. unfold with_creds. now rewrite Hv. }
  split; [|split].
  - split.
    + intros Hcalls.
      destruct (validate env (payload req)) as [creds|] eqn:Hv;
        [|reflexivity].
      destruct (app_with_creds env req w creds Hm Hp Hv) as [rest Hrest].
      rewrite Hrest in Hcalls. apply (f_equal List.length) in Hcalls.
      rewrite length_app in Hcalls. cbn [List.length] in Hcalls. lia.
    + intros Hv. now rewrite (Hnone Hv).
  - intros Hv. now rewrite (Hnone Hv).
  - intros Hnd. destruct (payload req) as [| | | |d] eqn:Hpl;
      try reflexivity.
    now destruct (Hnd d).
Qed.

Lemma provider_contacted_iff_valid_witness :
  let req :=
    {| method := "POST"; path := "/resources";
       payload := PList [PStr "AKIAEXAMPLE"; PStr "secret"] |} in
  validate (mock_env quiet 20000) (payload req) = None /\
  fst (app (mock_env quiet 20000) req empty_world) = unprocessable /\
  calls (snd (app (mock_env quiet 20000) req empty_world))
  = calls empty_world.
Proof.
  intros req.
  pose proof (provider_contacted_iff_valid (mock_env quiet 20000) req
                empty_world eq_refl (or_introl eq_refl))
    as (Hiff & H422 & Hobj).
  assert (Hv : validate (mock_env quiet 20000) (payload req) = None)
    by (apply Hobj; intros d; discriminate).
  split; [exact Hv|]. split; [exact (H422 Hv)|]. exact (proj2 Hiff Hv).
Defined.

(** *** Routes *)

Lemma route_none m p :
  ~ (m = "GET" /\ p = "/health") -> ~ (m = "GET" /\ p = "/metrics") ->
  ~ (m = "POST" /\ p = "/resources") -> ~ (m = "POST" /\ p = "/cost") ->
  route m p = None.
Proof.
  intros H1 H2 H3 H4. unfold route.
  destruct (String.eqb_spec m "GET") as [Hg|Hg];
    destruct (String.eqb_spec m "POST") as [Hpo|Hpo];
    destruct (String.eqb_spec p "/health") as [Hh|Hh];
    destruct (String.eqb_spec p "/metrics") as [Hme|Hme];
    destruct (String.eqb_spec p "/resources") as [Hr|Hr];
    destruct (String.eqb_spec p "/cost") as [Hc|Hc];
    cbn; try reflexivity; exfalso; auto.
Qed.

(** X12: the handlers are reached by their own method and path only: a
    request with any other method or path (GET on [/resources], POST on
    [/health], an unknown path) is answered by the framework, runs no
    handler and makes no provider call; it is still counted under its
    path by the middleware. *)
Theorem unrouted_request_makes_no_call env req w :
  ~ (method req = "GET" /\ path req = "/health") ->
  ~ (method req = "GET" /\ path req = "/metrics") ->
  ~ (method req = "POST" /\ path req = "/resources") ->
  ~ (method req = "POST" /\ path req = "/cost") ->
  fst (app env req w) = no_route env req /\
  calls (snd (app env req w)) = calls w /\
  count (snd (app env req w)) (path req) = count w (path req) + 1.
Proof.
  intros H1 H2 H3 H4.
  pose proof (route_none _ _ H1 H2 H3 H4) as Hr.
  unfold app, metrics_middleware, dispatch. rewrite Hr. cbn [fst snd].
  split; [reflexivity|]. split; [reflexivity|].
  rewrite count_leave, count_enter. unfold hit.
  now rewrite String.eqb_refl.
Qed.

Lemma unrouted_request_makes_no_call_witness :
  let req :=
    {| method := "GET"; path := "/resources";
       payload := payload post_resources |} in
  fst (app (mock_env quiet 20000) req empty_world)
  = no_route (mock_env quiet 20000) req /\
  calls (snd (app (mock_env quiet 20000) req empty_world))
  = calls empty_world /\
  count (snd (app (mock_env quiet 20000) req empty_world)) (path req)
  = count empty_world (path req) + 1.
Proof.
  intros req.
  apply (unrouted_request_makes_no_call (mock_env quiet 20000) req
           empty_world); intros [Hm Hp]; discriminate.
Defined.

End App.
